(** * The seeded JSON test-data generator of [cypress/utils/json-data-generator.ts]

    A shallow embedding of the class [JSONDataGenerator], of the data
    generator commands built on it, and the properties of its specification.

    Modelling conventions.
    - JavaScript numbers are exact rationals ([Q]); the rounding and the
      overflow of IEEE doubles are not modelled.  The properties of the
      values drawn (ranges, membership, lengths) are therefore stated for
      the states from which the doubles of the code do not overflow
      ([finite_state], [regular_state]) and for bounds of moderate size
      ([bounded], [bounded_integer], [bounded_length]): there the doubles
      stay within the range the property states.  Where a property names
      the very state or value, it is stated for the states on which the
      arithmetic of the code is exact ([exact_state]: integers with
      [currentSeed * 9301 + 49297] at most 2^53; every later state is an
      integer of [0, 233280)).
    - JavaScript values (JSON documents, generated records) are the
      inductive type [value].  An object is the list of its own properties
      in the order in which JavaScript enumerates them: array indices first,
      in ascending order, then the other names in the order of their
      creation ([define_property]).  An assignment [record[field] = v] to a
      record under construction is [obj_set]; for the name [__proto__] it
      reaches the setter of [Object.prototype] and creates no property.  A
      lookup such as [template.constraints?.[field]] sees own properties
      only.
    - Templates are typed as the method signatures type them: [min] and
      [max] are numbers, [decimal], the lengths and the ages are integers,
      data pools and enum lists hold strings, [count] is an integer.
    - A method that draws from the PRNG is a function of the PRNG state
      ([currentSeed], captured by the closure of [createSeededRandom]) that
      either returns a value and the new state or raises an exception.
    - The environment (file system, JSON parser, serializer, wall clock, and
      the value [Math.random()] hands to the constructor) is passed
      explicitly.  One call of [generate] reads one clock value, and the
      local time zone is UTC. *)

From Stdlib Require Import ZArith QArith Qabs Qround Qcanon String Ascii List Lia Lqa.
From stdpp Require Import gmap strings pretty.

Local Open Scope Z_scope.

(** ** JavaScript values *)

#[local] Unset Elimination Schemes.
Inductive value : Type :=
| VUndef
| VNull
| VNaN
| VBool (b : bool)
| VNum (q : Q)
| VStr (s : string)
| VArr (l : list value)
| VObj (l : list (string * value)).
#[local] Set Elimination Schemes.

(** ** Results of effectful methods *)

(** [Ok a s]: the method returned [a] and left the PRNG in state [s];
    [Raise e s]: it threw an exception whose string form is [e]. *)
Inductive outcome (A : Type) : Type :=
| Ok (a : A) (s : Q)
| Raise (e : string) (s : Q).
Arguments Ok {A} a s.
Arguments Raise {A} e s.

Definition Gen (A : Type) : Type := Q -> outcome A.

Definition ret {A} (a : A) : Gen A := fun s => Ok a s.

Definition bind {A B} (m : Gen A) (k : A -> Gen B) : Gen B :=
  fun s => match m s with
           | Ok a s' => k a s'
           | Raise e s' => Raise e s'
           end.

Definition throw {A} (e : string) : Gen A := fun s => Raise e s.

Notation "'let*' x ':=' m 'in' k" := (bind m (fun x => k))
  (at level 10, x pattern, m at level 100, k at level 200).

(** ** The seeded PRNG ([createSeededRandom]) *)

(** Truncation toward zero, and the JavaScript remainder [x % m], whose sign
    is the sign of the dividend. *)
Definition Qtrunc (x : Q) : Z := Z.quot (Qnum x) (Zpos (Qden x)).

Definition js_rem (x m : Q) : Q := (x - m * inject_Z (Qtrunc (x / m)))%Q.

(** [currentSeed = (currentSeed * 9301 + 49297) % 233280].  [Qred] only
    picks the reduced representation of the same rational. *)
Definition next_seed (currentSeed : Q) : Q :=
  Qred (js_rem (currentSeed * 9301 + 49297) 233280)%Q.

(** [this.random()]: update the state, return [currentSeed / 233280]. *)
Definition random : Gen Q :=
  fun currentSeed =>
    let currentSeed' := next_seed currentSeed in
    Ok (currentSeed' / 233280)%Q currentSeed'.

(** [randomInt(min, max)]:
    [Math.floor(this.random() * (max - min + 1)) + min]. *)
Definition randomInt (min max : Z) : Gen Z :=
  let* r := random in
  ret (Qfloor (r * inject_Z (max - min + 1)) + min).

(** [array[i]] for a number [i]: [undefined] (here [None]) out of range. *)
Definition js_index {T} (array : list T) (i : Z) : option T :=
  if i <? 0 then None else nth_error array (Z.to_nat i).

(** [randomChoice(array)]:
    [array[Math.floor(this.random() * array.length)]]. *)
Definition randomChoice {T} (array : list T) : Gen (option T) :=
  let* r := random in
  ret (js_index array (Qfloor (r * inject_Z (Z.of_nat (length array))))).

(** [randomBoolean()]: [this.random() < 0.5]. *)
Definition randomBoolean : Gen bool :=
  let* r := random in
  ret (negb (Qle_bool (1 # 2) r)).

(** [charset.charAt(i)]: the empty string out of range. *)
Definition charAt (charset : string) (i : Z) : string :=
  if i <? 0 then EmptyString
  else match String.get (Z.to_nat i) charset with
       | Some c => String c EmptyString
       | None => EmptyString
       end.

Definition default_charset : string :=
  "abcdefghijklmnopqrstuvwxyzABCDEFGHIJKLMNOPQRSTUVWXYZ0123456789".

(** The loop [for (let i = 0; i < length; i++) result += charset.charAt(...)]
    of [randomString], for an integer [length]; [n] counts the iterations
    left. *)
Fixpoint randomString_loop (n : nat) (charset result : string) : Gen string :=
  match n with
  | O => ret result
  | S n' =>
      let* r := random in
      randomString_loop n' charset
        (result ++ charAt charset
           (Qfloor (r * inject_Z (Z.of_nat (String.length charset)))))%string
  end.

Definition randomString (length : Z) (charset : string) : Gen string :=
  randomString_loop (Z.to_nat length) charset EmptyString.

(** ** The template model ([DataTemplate]) *)

(** The per-field constraint object; an absent property is [None]. *)
Record Constraints : Type := {
  c_min : option Q;
  c_max : option Q;
  c_decimal : option Z;
  c_minLength : option Z;
  c_maxLength : option Z;
  c_minAge : option Z;
  c_maxAge : option Z;
  c_format : option string
}.

(** The empty object [{}] of [template.constraints?.[field] || {}]. *)
Definition no_constraints : Constraints :=
  {| c_min := None; c_max := None; c_decimal := None;
     c_minLength := None; c_maxLength := None;
     c_minAge := None; c_maxAge := None; c_format := None |}.

(** [schema] is the parsed JSON object: its properties in enumeration
    order.  An absent [constraints], [enums] or [data] is the empty map:
    every use is an optional-chained lookup of one field. *)
Record DataTemplate : Type := {
  schema : list (string * value);
  constraints : gmap string Constraints;
  enums : gmap string (list string);
  data : gmap string (list string)
}.

(** [x || d] on an optional number: [undefined] and [0] are falsy. *)
Definition or_num (x : option Q) (d : Q) : Q :=
  match x with
  | Some q => if Qeq_bool q 0 then d else q
  | None => d
  end.

Definition or_int (x : option Z) (d : Z) : Z :=
  match x with
  | Some z => if z =? 0 then d else z
  | None => d
  end.

(** [x || d] on an optional string: [undefined] and [''] are falsy. *)
Definition or_str (x : option string) (d : string) : string :=
  match x with
  | Some EmptyString => d
  | Some s => s
  | None => d
  end.

Definition Qltb (x y : Q) : bool := negb (Qle_bool y x).

(** String conversion inside template literals and [+]. *)
Definition str_of (x : option string) : string :=
  match x with Some s => s | None => "undefined" end.

Definition value_of (x : option string) : value :=
  match x with Some s => VStr s | None => VUndef end.

(** [str + n] for an integer [n]: concatenation for a string,
    [NaN] for [undefined]. *)
Definition js_add_int (str : option string) (n : Z) : value :=
  match str with
  | Some s => VStr (s ++ pretty n)
  | None => VNaN
  end.

(** [str + suffix]: [NaN] when both are [undefined], else concatenation. *)
Definition js_add_str (str suffix : option string) : value :=
  match str, suffix with
  | None, None => VNaN
  | _, _ => VStr (str_of str ++ str_of suffix)
  end.

(** ** Primitive value generators *)

(** [varyString(str)]: the nested checks [random() < 0.3] and then
    [random() < 0.2]. *)
Definition varyString (str : option string) : Gen value :=
  let* r1 := random in
  if Qltb r1 (3 # 10) then
    let* n := randomInt 1 999 in
    ret (js_add_int str n)
  else
    let* r2 := random in
    if Qltb r2 (2 # 10) then
      let* suffix := randomChoice ["_test"; "_demo"; "_sample"; "_v2"; "_new"] in
      ret (js_add_str str suffix)
    else ret (value_of str).

(** [generateString(field, constraints, data, variations)]; [pool] is
    [template.data?.[field]]. *)
Definition generateString (c : Constraints) (pool : option (list string))
    (variations : bool) : Gen value :=
  match pool with
  | Some ((_ :: _) as items) =>
      let* v := randomChoice items in
      if variations then varyString v else ret (value_of v)
  | _ =>
      let minLength := or_int (c_minLength c) 3 in
      let maxLength := or_int (c_maxLength c) 20 in
      let* length := randomInt minLength maxLength in
      let* s := randomString length default_charset in
      ret (VStr s)
  end.

(** [value.toFixed(decimal)] read back by [parseFloat], for
    [0 <= decimal <= 100]: round half away from zero at [decimal] places;
    from [1e21] on, [toFixed] prints the number itself. *)
Definition toFixed (x : Q) (decimal : Z) : Q :=
  if Qle_bool (inject_Z (10 ^ 21)) (Qabs x) then x
  else
    let n := Qfloor (Qabs x * inject_Z (10 ^ decimal) + (1 # 2)) in
    if Qle_bool 0 x then (inject_Z n / inject_Z (10 ^ decimal))%Q
    else (inject_Z (- n) / inject_Z (10 ^ decimal))%Q.

(** [generateNumber(constraints)].  [toFixed] raises a [RangeError] for
    more than 100 digits. *)
Definition generateNumber (c : Constraints) : Gen value :=
  let min := or_num (c_min c) 0 in
  let max := or_num (c_max c) 100 in
  let decimal := or_int (c_decimal c) 0 in
  let* r := random in
  let v := (r * (max - min) + min)%Q in
  if 0 <? decimal then
    if decimal <=? 100 then ret (VNum (Qred (toFixed v decimal)))
    else throw "RangeError: toFixed() digits argument must be between 0 and 100"
  else ret (VNum (inject_Z (Qfloor v))).

(** [generateEmail(field, data, variations)]: the pools are internal. *)
Definition generateEmail : Gen value :=
  let domains := ["gmail.com"; "yahoo.com"; "hotmail.com"; "outlook.com"; "company.com"] in
  let firstNames := ["john"; "jane"; "mike"; "sarah"; "david"; "emily"; "chris"; "lisa"] in
  let lastNames := ["smith"; "johnson"; "williams"; "brown"; "jones"; "garcia"; "miller"] in
  let* firstName := randomChoice firstNames in
  let* lastName := randomChoice lastNames in
  let* domain := randomChoice domains in
  let* number := randomInt 1 999 in
  ret (VStr (str_of firstName ++ "." ++ str_of lastName ++ pretty number
             ++ "@" ++ str_of domain)).

(** [generatePhone(constraints)]. *)
Definition generatePhone (c : Constraints) : Gen value :=
  let format := or_str (c_format c) "us" in
  if String.eqb format "us" then
    let* areaCode := randomInt 200 999 in
    let* exchange := randomInt 200 999 in
    let* number := randomInt 1000 9999 in
    ret (VStr ("(" ++ pretty areaCode ++ ") " ++ pretty exchange
               ++ "-" ++ pretty number))
  else
    let* s := randomString 10 "0123456789" in
    ret (VStr s).

(** [generateUrl()]. *)
Definition generateUrl : Gen value :=
  let protocols := ["https://"; "http://"] in
  let domains := ["example.com"; "test.com"; "demo.org"; "sample.net"] in
  let paths := [""; "/page"; "/product"; "/user"; "/api"; "/docs"] in
  let* protocol := randomChoice protocols in
  let* domain := randomChoice domains in
  let* path := randomChoice paths in
  ret (VStr (str_of protocol ++ str_of domain ++ str_of path)).

(** [generateEnum(enums, variations)]. *)
Definition generateEnum (enum : option (list string)) : Gen value :=
  match enum with
  | Some ((_ :: _) as items) =>
      let* v := randomChoice items in
      ret (value_of v)
  | _ => ret (VStr "unknown")
  end.

(** [Array.from({ length: n }, f)]: [f] is called [n] times in order
    ([n] already clamped at zero). *)
Fixpoint repeatM {A} (n : nat) (f : Gen A) : Gen (list A) :=
  match n with
  | O => ret []
  | S n' =>
      let* x := f in
      let* xs := repeatM n' f in
      ret (x :: xs)
  end.

(** [items.join(sep)] on strings; [undefined] items print as nothing. *)
Definition join (sep : string) (items : list (option string)) : string :=
  String.concat sep (map (fun x => match x with Some s => s | None => EmptyString end) items).

(** [c.toUpperCase()] on an ASCII character. *)
Definition toUpperCase (c : ascii) : ascii :=
  let n := nat_of_ascii c in
  if ((97 <=? n) && (n <=? 122))%nat then ascii_of_nat (n - 32) else c.

(** [sentence.charAt(0).toUpperCase() + sentence.slice(1)]. *)
Definition capitalize (sentence : string) : string :=
  match sentence with
  | EmptyString => EmptyString
  | String c rest => String (toUpperCase c) rest
  end.

Definition lorem_words : list string :=
  ["lorem"; "ipsum"; "dolor"; "sit"; "amet"; "consectetur"; "adipiscing"; "elit"].

(** The loop [while (currentLength < length) { ... }] of [generateText].
    Every iteration adds at least 1 to [currentLength], so [length]
    iterations always suffice; [fuel] bounds the iterations (see
    [generateText_loop_fuel]). *)
Fixpoint generateText_loop (fuel : nat) (length currentLength : Z)
    (sentences : list string) : Gen (list string) :=
  if currentLength <? length then
    match fuel with
    | O => ret sentences
    | S fuel' =>
        let* sentenceLength := randomInt 5 15 in
        let* ws := repeatM (Z.to_nat sentenceLength) (randomChoice lorem_words) in
        let sentence := join " " ws in
        generateText_loop fuel' length
          (currentLength + Z.of_nat (String.length sentence) + 1)
          (sentences ++ [(capitalize sentence ++ ".")%string])
    end
  else ret sentences.

(** [generateText(data, constraints)]. *)
Definition generateText (pool : option (list string)) (c : Constraints) : Gen value :=
  match pool with
  | Some ((_ :: _) as items) =>
      let* v := randomChoice items in
      ret (value_of v)
  | _ =>
      let minLength := or_int (c_minLength c) 50 in
      let maxLength := or_int (c_maxLength c) 500 in
      let* length := randomInt minLength maxLength in
      let* sentences := generateText_loop (Z.to_nat length) length 0 [] in
      ret (VStr (String.concat " " sentences))
  end.

(** ** Dates

    The built-in [Date], with the local time zone taken to be UTC.  A time
    value is a number of milliseconds since the epoch; [None] is the invalid
    date (time value [NaN]). *)

Definition msPerDay : Z := 86400000.

(** Day number of a proleptic Gregorian date, month in 1..12. *)
Definition days_from_civil (y m d : Z) : Z :=
  let y := if m <=? 2 then y - 1 else y in
  let era := y / 400 in
  let yoe := y - era * 400 in
  let mp := if 2 <? m then m - 3 else m + 9 in
  let doy := (153 * mp + 2) / 5 + d - 1 in
  let doe := yoe * 365 + yoe / 4 - yoe / 100 + doy in
  era * 146097 + doe - 719468.

(** Year, month (1..12) and day of a day number. *)
Definition civil_from_days (z : Z) : Z * Z * Z :=
  let z := z + 719468 in
  let era := z / 146097 in
  let doe := z - era * 146097 in
  let yoe := (doe - doe / 1460 + doe / 36524 - doe / 146096) / 365 in
  let doy := doe - (365 * yoe + yoe / 4 - yoe / 100) in
  let mp := (5 * doy + 2) / 153 in
  let d := doy - (153 * mp + 2) / 5 + 1 in
  let m := if mp <? 10 then mp + 3 else mp - 9 in
  (if m <=? 2 then yoe + era * 400 + 1 else yoe + era * 400, m, d).

(** [TimeClip]: a time value beyond 8.64e15 ms is invalid. *)
Definition TimeClip (t : Q) : option Z :=
  if Qle_bool (Qabs t) (inject_Z 8640000000000000) then Some (Qtrunc t) else None.

(** [new Date(year, monthIndex, day)] for [monthIndex] in 0..11; a year in
    0..99 means 1900 + year. *)
Definition Date_ymd (year monthIndex day : Z) : option Z :=
  let yr := if (0 <=? year) && (year <=? 99) then 1900 + year else year in
  TimeClip (inject_Z ((days_from_civil yr (monthIndex + 1) 1 + (day - 1)) * msPerDay)).

(** [date.getFullYear()]. *)
Definition getFullYear (t : Z) : Z := fst (fst (civil_from_days (t / msPerDay))).

(** Decimal digits, zero-padded to [width]. *)
Definition pad (width : nat) (n : Z) : string :=
  let digits := pretty n in
  String.concat "" (repeat "0"%string (width - String.length digits)) ++ digits.

(** [date.toISOString()] of a valid date. *)
Definition toISOString (t : Z) : string :=
  let '(y, m, d) := civil_from_days (t / msPerDay) in
  let ms := t mod msPerDay in
  let year :=
    if (0 <=? y) && (y <=? 9999) then pad 4 y
    else ((if (y <? 0)%Z then "-" else "+") ++ pad 6 (Z.abs y))%string in
  year ++ "-" ++ pad 2 m ++ "-" ++ pad 2 d ++ "T"
    ++ pad 2 (ms / 3600000) ++ ":" ++ pad 2 ((ms / 60000) mod 60) ++ ":"
    ++ pad 2 ((ms / 1000) mod 60) ++ "." ++ pad 3 (ms mod 1000) ++ "Z".

(** [s.split('T')[0]]. *)
Fixpoint before_T (s : string) : string :=
  match s with
  | EmptyString => EmptyString
  | String c rest => if Ascii.eqb c "T" then EmptyString else String c (before_T rest)
  end.

(** [minDate.getTime() + r * (maxDate.getTime() - minDate.getTime())];
    [NaN] when a date is invalid. *)
Definition between (lo hi : option Z) (r : Q) : option Q :=
  match lo, hi with
  | Some a, Some b => Some (inject_Z a + r * (inject_Z b - inject_Z a))%Q
  | _, _ => None
  end.

(** [new Date(timestamp).toISOString()], which raises a [RangeError] on an
    invalid date. *)
Definition isoOfTimestamp (timestamp : option Q) : Gen string :=
  match timestamp with
  | Some t =>
      match TimeClip t with
      | Some tv => ret (toISOString tv)
      | None => throw "RangeError: Invalid time value"
      end
  | None => throw "RangeError: Invalid time value"
  end.

(** [generateDate(constraints)]; [now] is the time value of [new Date()]. *)
Definition generateDate (now : Z) (c : Constraints) : Gen value :=
  let minAge := or_int (c_minAge c) 0 in
  let maxAge := or_int (c_maxAge c) 100 in
  let minDate := Date_ymd (getFullYear now - maxAge) 0 1 in
  let maxDate := Date_ymd (getFullYear now - minAge) 11 31 in
  let* r := random in
  let* iso := isoOfTimestamp (between minDate maxDate r) in
  ret (VStr (before_T iso)).

(** [generateDateTime()]. *)
Definition generateDateTime (now : Z) : Gen value :=
  let past := TimeClip (inject_Z (now - 365 * 24 * 60 * 60 * 1000)) in
  let future := TimeClip (inject_Z (now + 30 * 24 * 60 * 60 * 1000)) in
  let* r := random in
  let* iso := isoOfTimestamp (between past future r) in
  ret (VStr iso).

(** ** The record generator (template walker) *)

Definition keys (o : list (string * value)) : list string := map fst o.

(** *** Property names and their order

    JavaScript enumerates the own properties of an ordinary object with the
    array indices first, in ascending order, and then the other names in the
    order in which they were created.  An array index is a canonical numeric
    string (digits only, no leading zero) whose value is below 2^32 - 1. *)

Definition digit (c : ascii) : option N :=
  let n := N_of_ascii c in
  if ((48 <=? n) && (n <=? 57))%N then Some (n - 48)%N else None.

Fixpoint digits (name : string) (acc : N) : option N :=
  match name with
  | EmptyString => Some acc
  | String c rest =>
      match digit c with
      | Some d => digits rest (acc * 10 + d)%N
      | None => None
      end
  end.

Definition array_index (name : string) : option N :=
  match name with
  | EmptyString => None
  | String c rest =>
      if Ascii.eqb c "0"%char && negb (String.eqb rest EmptyString) then None
      else match digits name 0 with
           | Some n => if (n <? 4294967295)%N then Some n else None
           | None => None
           end
  end.

(** The place of a new property whose name is the array index [i]: before
    the first larger index, or else before the first name that is no
    index. *)
Fixpoint insert_index (i : N) (field : string) (v : value)
    (record : list (string * value)) : list (string * value) :=
  match record with
  | [] => [(field, v)]
  | (k, w) :: rest =>
      match array_index k with
      | Some j =>
          if (i <? j)%N then (field, v) :: record
          else (k, w) :: insert_index i field v rest
      | None => (field, v) :: record
      end
  end.

(** A new value for the property [field], which keeps its place. *)
Fixpoint overwrite (record : list (string * value)) (field : string) (v : value)
    : list (string * value) :=
  match record with
  | [] => []
  | (k, w) :: rest =>
      if String.eqb k field then (k, v) :: rest
      else (k, w) :: overwrite rest field v
  end.

Definition has_own (record : list (string * value)) (field : string) : bool :=
  existsb (String.eqb field) (keys record).

(** The own data property [field] is given the value [v]: an existing
    property keeps its place, a new index goes to its place among the
    indices, any other new name goes last. *)
Definition define_property (record : list (string * value)) (field : string)
    (v : value) : list (string * value) :=
  if has_own record field then overwrite record field v
  else match array_index field with
       | Some i => insert_index i field v record
       | None => record ++ [(field, v)]
       end.

(** [record[field] = v] on a record under construction, which was created
    by [{}] and holds data properties only.  The name [__proto__] is found
    on [Object.prototype] as an accessor, whose setter changes the prototype
    of the record at most: the record gets no own property.  Every other
    name defines an own data property. *)
Definition obj_set (record : list (string * value)) (field : string) (v : value)
    : list (string * value) :=
  if String.eqb field "__proto__" then record
  else define_property record field v.

(** The object a JSON parser builds from the members of an object literal,
    taken in the order of the document (a name met again overwrites; the
    parser defines properties, so that [__proto__] is a name like any
    other). *)
Definition object_of_entries (members : list (string * value)) : list (string * value) :=
  fold_left (fun object member => define_property object (fst member) (snd member))
    members [].

(** The string of a type tag, for the [switch (type)], whose cases compare
    with [===]. *)
Definition is_tag (type : value) (tag : string) : bool :=
  match type with
  | VStr s => String.eqb s tag
  | _ => false
  end.

Definition lookup_constraints (template : DataTemplate) (field : string) : Constraints :=
  match constraints template !! field with
  | Some c => c
  | None => no_constraints
  end.

(** The [switch] of [generateFieldValue], reached when [type] is neither a
    plain object nor an array. *)
Definition generatePrimitive (now : Z) (template : DataTemplate)
    (variations : bool) (field : string) (type : value) : Gen value :=
  let c := lookup_constraints template field in
  let enum := enums template !! field in
  let pool := data template !! field in
  if is_tag type "string" then generateString c pool variations
  else if is_tag type "number" then generateNumber c
  else if is_tag type "boolean" then
    let* b := randomBoolean in ret (VBool b)
  else if is_tag type "email" then generateEmail
  else if is_tag type "phone" then generatePhone c
  else if is_tag type "date" then generateDate now c
  else if is_tag type "datetime" then generateDateTime now
  else if is_tag type "url" then generateUrl
  else if is_tag type "text" then generateText pool c
  else if is_tag type "enum" then generateEnum enum
  else match enum with
       | Some _ => generateEnum enum
       | None => generateString c pool variations
       end.

(** [generateFieldValue(field, type, template, variations)].  A plain object
    is walked property by property; an array type [[t]] yields between
    [randomInt(1, 5)] values of type [t] ([t] is [undefined] for []). *)
Fixpoint generateFieldValue (now : Z) (template : DataTemplate)
    (variations : bool) (field : string) (type : value) {struct type} : Gen value :=
  match type with
  | VObj entries =>
      (fix walk (entries : list (string * value))
           (nestedRecord : list (string * value)) : Gen value :=
         match entries with
         | [] => ret (VObj nestedRecord)
         | (nestedField, nestedType) :: rest =>
             let* v := generateFieldValue now template variations nestedField nestedType in
             walk rest (obj_set nestedRecord nestedField v)
         end) entries []
  | VArr items =>
      let* arrayLength := randomInt 1 5 in
      let* vs :=
        repeatM (Z.to_nat arrayLength)
          match items with
          | arrayType :: _ => generateFieldValue now template variations field arrayType
          | [] => generatePrimitive now template variations field VUndef
          end in
      ret (VArr vs)
  | _ => generatePrimitive now template variations field type
  end.

(** The loop [for (const [field, type] of Object.entries(o)) record[field] = ...],
    shared by [generateSingleRecord] and the nested case above (see
    [generateFieldValue_object]). *)
Fixpoint generateFields (now : Z) (template : DataTemplate) (variations : bool)
    (entries : list (string * value)) (record : list (string * value)) : Gen value :=
  match entries with
  | [] => ret (VObj record)
  | (field, type) :: rest =>
      let* v := generateFieldValue now template variations field type in
      generateFields now template variations rest (obj_set record field v)
  end.

(** [generateSingleRecord(template, variations)]. *)
Definition generateSingleRecord (now : Z) (template : DataTemplate)
    (variations : bool) : Gen value :=
  generateFields now template variations (schema template) [].

(** ** The generator instance and its host *)

(** What a method call evaluates to. *)
Inductive completion (A : Type) : Type :=
| Returns (a : A)
| Throws (e : string).
Arguments Returns {A} a.
Arguments Throws {A} e.

(** The host a call runs on: [fs.readFileSync(path, 'utf8')], [JSON.parse]
    (typed by the cast to [DataTemplate]), [JSON.stringify],
    [path.join(__dirname, p)] and the time value of [new Date()].  A failed
    read or parse carries the string form of the error. *)
Record Host : Type := {
  readFileSync : string -> completion string;
  JSON_parse : string -> completion DataTemplate;
  JSON_stringify : value -> string;
  join_dirname : string -> string;
  Date_now : Z
}.

Record GenerationOptions : Type := {
  count : option Z;
  locale : option string;
  seed : option Q;
  variations : option bool;
  unique : option bool
}.

(** The fields of the class: the template cache and the state captured by
    [this.random]. *)
Record JSONDataGenerator : Type := {
  templates : gmap string DataTemplate;
  currentSeed : Q
}.

(** [new JSONDataGenerator(seed)]:
    [createSeededRandom(seed || Math.random() * 1000000)]; [Math_random] is
    the value [Math.random()] returns. *)
Definition new_JSONDataGenerator (seed : option Q) (Math_random : Q) : JSONDataGenerator :=
  {| templates := ∅;
     currentSeed := or_num seed (Math_random * 1000000)%Q |}.

Section Methods.

Variable host : Host.

(** [loadTemplate(templateName, templatePath)]. *)
Definition loadTemplate (this : JSONDataGenerator) (templateName : string)
    (templatePath : option string) : completion DataTemplate * JSONDataGenerator :=
  let templateFile :=
    or_str templatePath
      (join_dirname host ("../data/templates/" ++ templateName ++ ".json")) in
  match readFileSync host templateFile with
  | Returns templateData =>
      match JSON_parse host templateData with
      | Returns template =>
          (Returns template,
           {| templates := <[templateName := template]> (templates this);
              currentSeed := currentSeed this |})
      | Throws error =>
          (Throws ("Failed to load template " ++ templateName ++ ": " ++ error), this)
      end
  | Throws error =>
      (Throws ("Failed to load template " ++ templateName ++ ": " ++ error), this)
  end.

(** [isDuplicate(data, generatedValues)]. *)
Definition isDuplicate (data : value) (generatedValues : gset string) : bool :=
  bool_decide (JSON_stringify host data ∈ generatedValues).

Section Batch.

Variables (template : DataTemplate) (variations unique : bool).

Definition maxAttempts : Z := if unique then 100 else 1.

(** The loop [do { data = ...; attempts++ } while (unique && isDuplicate
    && attempts < maxAttempts)], entered with [attempts] attempts made;
    [remaining] bounds the iterations still possible (see
    [attempt_loop_fuel]).  Returns [data] and [attempts]. *)
Fixpoint attempt_loop (remaining : nat) (attempts : Z)
    (generatedValues : gset string) : Gen (value * Z) :=
  let* data := generateSingleRecord (Date_now host) template variations in
  let attempts := attempts + 1 in
  if unique && isDuplicate data generatedValues && (attempts <? maxAttempts) then
    match remaining with
    | O => ret (data, attempts)
    | S remaining' => attempt_loop remaining' attempts generatedValues
    end
  else ret (data, attempts).

Definition warning : string :=
  "Could not generate unique record after " ++ pretty maxAttempts ++ " attempts".

(** The loop [for (let i = 0; i < count; i++)] of [generate], with [n]
    iterations left: the records and the [console.warn] lines so far,
    the outcome, and the final PRNG state. *)
Fixpoint generate_loop (n : nat) (results : list value)
    (generatedValues : gset string) (warnings : list string) (s : Q)
    : completion (list value) * list string * Q :=
  match n with
  | O => (Returns results, warnings, s)
  | S n' =>
      match attempt_loop (Z.to_nat maxAttempts) 0 generatedValues s with
      | Raise e s' => (Throws e, warnings, s')
      | Ok (data, attempts) s' =>
          let warnings :=
            if unique && (maxAttempts <=? attempts)
            then warnings ++ [warning] else warnings in
          let generatedValues :=
            if unique then {[JSON_stringify host data]} ∪ generatedValues
            else generatedValues in
          generate_loop n' (results ++ [data]) generatedValues warnings s'
      end
  end.

End Batch.

Definition or_default {A} (x : option A) (d : A) : A :=
  match x with Some a => a | None => d end.

(** [generate(templateName, options)]: the result, the [console.warn]
    lines, and the instance afterwards. *)
Definition generate (this : JSONDataGenerator) (templateName : string)
    (options : GenerationOptions)
    : completion (list value) * list string * JSONDataGenerator :=
  let '(loaded, this) :=
    match templates this !! templateName with
    | Some template => (Returns template, this)
    | None => loadTemplate this templateName None
    end in
  match loaded with
  | Throws e => (Throws e, [], this)
  | Returns template =>
      let count := or_default (count options) 1 in
      let variations := or_default (variations options) true in
      let unique := or_default (unique options) false in
      let '(result, warnings, s) :=
        generate_loop template variations unique (Z.to_nat count) [] ∅ []
          (currentSeed this) in
      (result, warnings, {| templates := templates this; currentSeed := s |})
  end.

End Methods.

(** ** Induction on values *)

Section value_induction.

Variable P : value -> Prop.
Hypothesis Pundef : P VUndef.
Hypothesis Pnull : P VNull.
Hypothesis Pnan : P VNaN.
Hypothesis Pbool : forall b, P (VBool b).
Hypothesis Pnum : forall q, P (VNum q).
Hypothesis Pstr : forall s, P (VStr s).
Hypothesis Parr : forall l, Forall P l -> P (VArr l).
Hypothesis Pobj : forall l, Forall (fun kv => P (snd kv)) l -> P (VObj l).

Fixpoint value_ind (v : value) : P v :=
  match v with
  | VUndef => Pundef
  | VNull => Pnull
  | VNaN => Pnan
  | VBool b => Pbool b
  | VNum q => Pnum q
  | VStr s => Pstr s
  | VArr l =>
      Parr l ((fix all (l : list value) : Forall P l :=
                 match l with
                 | [] => @List.Forall_nil _ P
                 | x :: r => @List.Forall_cons _ P x r (value_ind x) (all r)
                 end) l)
  | VObj l =>
      Pobj l ((fix all (l : list (string * value)) : Forall (fun kv => P (snd kv)) l :=
                 match l with
                 | [] => @List.Forall_nil _ _
                 | kv :: r => @List.Forall_cons _ _ kv r (value_ind (snd kv)) (all r)
                 end) l)
  end.

End value_induction.

(** ** Properties of templates and records *)

(** States from which the doubles of the code do not overflow: below
    about 1.9e304 in magnitude the sum [currentSeed * 9301 + 49297] is
    finite, the remainder lies within (-233280, 233280), and [random()]
    returns a number and not [NaN].  A regular state is moreover not
    negative, so that [random()] lies in [0, 1). *)
Definition finite_state (s : Q) : Prop := (Qabs s <= inject_Z (10 ^ 300))%Q.

Definition regular_state (s : Q) : Prop := (0 <= s <= inject_Z (10 ^ 300))%Q.

(** States on which the arithmetic of the PRNG is moreover exact in the
    code: non-negative integers [z] whose image [z * 9301 + 49297] is at
    most 2^53, so that the product, the sum and the remainder are exact
    integers of doubles.  Every integer of [0, 233280) is one, and so is
    every integer seed up to 968411918577. *)
Definition exact_seed (z : Z) : Prop :=
  0 <= z /\ z * 9301 + 49297 <= 2 ^ 53.

Definition exact_state (s : Q) : Prop :=
  exists z : Z, s = inject_Z z /\ exact_seed z.

(** Bounds of moderate size: numbers and integers up to 10^15 in magnitude,
    inside the range where doubles hold every integer. *)
Definition bounded (x : Q) : Prop := (Qabs x <= inject_Z (10 ^ 15))%Q.

Definition bounded_integer (z : Z) : Prop := Z.abs z <= 10 ^ 15.

(** Lengths far below the longest string of any engine. *)
Definition bounded_length (n : Z) : Prop := Z.abs n <= 10 ^ 8.

(** The bounds of a number field as the specification reads them
    ([constraints.min ?? 0], [constraints.max ?? 100]). *)
Definition spec_min (c : Constraints) : Q :=
  match c_min c with Some m => m | None => 0 end.

Definition spec_max (c : Constraints) : Q :=
  match c_max c with Some m => m | None => 100 end.

(** The number of decimal places [generateNumber] keeps. *)
Definition precision (c : Constraints) : Z := Z.max 0 (or_int (c_decimal c) 0).

(** [x] has at most [decimal] decimal places. *)
Definition on_grid (decimal : Z) (x : Q) : bool :=
  Qeq_bool (inject_Z (Qfloor (x * inject_Z (10 ^ decimal)))) (x * inject_Z (10 ^ decimal)).

(** The bounds of a string field as the specification reads them
    ([constraints.minLength ?? 3], [constraints.maxLength ?? 20]). *)
Definition spec_minLength (c : Constraints) : Z :=
  match c_minLength c with Some n => n | None => 3 end.

Definition spec_maxLength (c : Constraints) : Z :=
  match c_maxLength c with Some n => n | None => 20 end.

(** [k] may come before [k'] when an object is enumerated. *)
Definition enumerated_before (k k' : string) : bool :=
  match array_index k, array_index k' with
  | Some i, Some j => (i <? j)%N
  | Some _, None => true
  | None, Some _ => false
  | None, None => true
  end.

Fixpoint enumeration_order (names : list string) : bool :=
  match names with
  | [] => true
  | k :: rest => forallb (enumerated_before k) rest && enumeration_order rest
  end.

(** A JSON document as JavaScript holds it: in every object, at any depth,
    no property occurs twice and the properties stand in enumeration
    order. *)
Fixpoint wf_value (v : value) : bool :=
  match v with
  | VArr l => forallb wf_value l
  | VObj l =>
      bool_decide (NoDup (map fst l))
      && enumeration_order (map fst l)
      && (fix all (l : list (string * value)) : bool :=
            match l with
            | [] => true
            | (_, x) :: r => wf_value x && all r
            end) l
  | _ => true
  end.

(** No object of [v], at any depth, has a property named [__proto__]. *)
Fixpoint proto_free (v : value) : bool :=
  match v with
  | VArr l => forallb proto_free l
  | VObj l =>
      (fix all (l : list (string * value)) : bool :=
         match l with
         | [] => true
         | (k, x) :: r => negb (String.eqb k "__proto__") && proto_free x && all r
         end) l
  | _ => true
  end.

(** [v] has the shape of [type]: an object type yields an object with the
    same keys in the same order, each property shaped by its own type; an
    array type [[t]] yields an array of values shaped by [t]. *)
Fixpoint conforms (type v : value) {struct type} : bool :=
  match type with
  | VObj entries =>
      match v with
      | VObj props =>
          (fix all (entries props : list (string * value)) : bool :=
             match entries, props with
             | [], [] => true
             | (k, t) :: entries', (k', x) :: props' =>
                 String.eqb k k' && conforms t x && all entries' props'
             | _, _ => false
             end) entries props
      | _ => false
      end
  | VArr (t :: _) =>
      match v with
      | VArr vs => forallb (conforms t) vs
      | _ => false
      end
  | VArr [] =>
      match v with
      | VArr _ => true
      | _ => false
      end
  | _ => true
  end.

Fixpoint conforms_fields (entries props : list (string * value)) : bool :=
  match entries, props with
  | [], [] => true
  | (k, t) :: entries', (k', x) :: props' =>
      String.eqb k k' && conforms t x && conforms_fields entries' props'
  | _, _ => false
  end.

(** No [date] or [datetime] tag is reachable in [type]: generation never
    reads the clock. *)
Fixpoint clock_free (type : value) : bool :=
  match type with
  | VStr s => negb (String.eqb s "date") && negb (String.eqb s "datetime")
  | VArr (t :: _) => clock_free t
  | VObj entries =>
      (fix all (entries : list (string * value)) : bool :=
         match entries with
         | [] => true
         | (_, t) :: rest => clock_free t && all rest
         end) entries
  | _ => true
  end.

(** Conditions under which no field generator can raise: [toFixed] is asked
    for at most 100 digits, and the years of a date range stay within 80000
    of year 0 on a clock within 8e15 ms of the epoch. *)
Definition constraints_safe (now : Z) (c : Constraints) : bool :=
  (or_int (c_decimal c) 0 <=? 100)
  && (Z.abs (getFullYear now - or_int (c_maxAge c) 100) <=? 80000)
  && (Z.abs (getFullYear now - or_int (c_minAge c) 0) <=? 80000).

Definition template_safe (now : Z) (template : DataTemplate) : bool :=
  (Z.abs now <=? 8000000000000000)
  && constraints_safe now no_constraints
  && bool_decide (map_Forall (fun _ c => constraints_safe now c = true) (constraints template)).

(** [needle] occurs in [text]. *)
Definition includes (text needle : string) : Prop :=
  exists before after : string, text = (before ++ needle ++ after)%string.

(** ** Total methods *)

(** [m] returns from every PRNG state, with a result satisfying [post]. *)
Definition returns {A} (m : Gen A) (post : A -> Prop) : Prop :=
  forall s, exists a s', m s = Ok a s' /\ post a.

Definition total {A} (m : Gen A) : Prop := returns m (fun _ => True).

(** ** A concrete host

    A host to run the generator on: a file system and a parser given by
    tables, and [JSON.stringify] written out.  Numbers print as decimals
    (the numbers the generator emits have finitely many decimal places;
    exponent notation is not modelled, other rationals print as a
    fraction) and strings are quoted with the quote and the backslash
    escaped. *)

Definition dquote : string := String (ascii_of_nat 34) EmptyString.

Fixpoint escape (s : string) : string :=
  match s with
  | EmptyString => EmptyString
  | String c rest =>
      ((if Ascii.eqb c (ascii_of_nat 34) then "\" ++ dquote
        else if Ascii.eqb c "\" then "\\"
        else String c EmptyString) ++ escape rest)%string
  end.

Definition quote (s : string) : string := (dquote ++ escape s ++ dquote)%string.

(** The least [k] up to [fuel] places with [10 ^ k] a multiple of [d]. *)
Fixpoint decimal_places (fuel : nat) (k d : Z) : option Z :=
  match fuel with
  | O => None
  | S fuel' => if (10 ^ k) mod d =? 0 then Some k else decimal_places fuel' (k + 1) d
  end.

Definition number_to_string (q : Q) : string :=
  let q := Qred q in
  let n := Qnum q in
  let d := Zpos (Qden q) in
  if d =? 1 then pretty n
  else match decimal_places 30 1 d with
       | Some k =>
           let m := Z.abs n * 10 ^ k / d in
           ((if (n <? 0)%Z then "-" else "")
            ++ pretty (m / 10 ^ k) ++ "." ++ pad (Z.to_nat k) (m mod 10 ^ k))%string
       | None => (pretty n ++ "/" ++ pretty d)%string
       end.

(** [JSON.stringify(v)], [None] for [undefined]: a property whose value is
    [undefined] is left out, an [undefined] array element prints as [null],
    and so does [NaN]. *)
Fixpoint stringify (v : value) : option string :=
  match v with
  | VUndef => None
  | VNull => Some "null"%string
  | VNaN => Some "null"%string
  | VBool b => Some (if b then "true" else "false")%string
  | VNum q => Some (number_to_string q)
  | VStr s => Some (quote s)
  | VArr l =>
      Some ("[" ++ String.concat ","
                     (map (fun x => match stringify x with
                                    | Some s => s
                                    | None => "null"%string
                                    end) l) ++ "]")%string
  | VObj l =>
      Some ("{" ++ String.concat ","
                     ((fix props (l : list (string * value)) : list string :=
                         match l with
                         | [] => []
                         | (k, x) :: rest =>
                             match stringify x with
                             | Some s => (quote k ++ ":" ++ s)%string :: props rest
                             | None => props rest
                             end
                         end) l) ++ "}")%string
  end.

(** The host over a table of files (path to text) and a table of documents
    (text to the template it parses to), at clock reading [now].  The module
    lives in [/repo/cypress/utils]. *)
Definition table_host (files : gmap string string)
    (documents : gmap string DataTemplate) (now : Z) : Host :=
  {| readFileSync path :=
       match files !! path with
       | Some text => Returns text
       | None => Throws ("Error: ENOENT: no such file or directory, open '" ++ path ++ "'")
       end;
     JSON_parse text :=
       match documents !! text with
       | Some template => Returns template
       | None => Throws "SyntaxError: Unexpected end of JSON input"
       end;
     JSON_stringify v := str_of (stringify v);
     join_dirname p := ("/repo/cypress/utils/" ++ p)%string;
     Date_now := now |}.

(** The same host at another clock reading. *)
Definition at_time (host : Host) (now : Z) : Host :=
  {| readFileSync := readFileSync host;
     JSON_parse := JSON_parse host;
     JSON_stringify := JSON_stringify host;
     join_dirname := join_dirname host;
     Date_now := now |}.

(** The template [loadTemplate] finds for a name on a host, if any. *)
Definition stored_template (host : Host) (templateName : string) : option DataTemplate :=
  match readFileSync host
          (join_dirname host ("../data/templates/" ++ templateName ++ ".json")) with
  | Returns text =>
      match JSON_parse host text with
      | Returns template => Some template
      | Throws _ => None
      end
  | Throws _ => None
  end.

(** *** Sample templates and inputs *)

Definition template_of (fields : list (string * value))
    (cs : list (string * Constraints)) : DataTemplate :=
  {| schema := fields; constraints := list_to_map cs; enums := ∅; data := ∅ |}.

Definition number_constraints (lo hi : option Q) (places : option Z) : Constraints :=
  {| c_min := lo; c_max := hi; c_decimal := places;
     c_minLength := None; c_maxLength := None;
     c_minAge := None; c_maxAge := None; c_format := None |}.

Definition length_constraints (lo hi : option Z) : Constraints :=
  {| c_min := None; c_max := None; c_decimal := None;
     c_minLength := lo; c_maxLength := hi;
     c_minAge := None; c_maxAge := None; c_format := None |}.

(** [{ "schema": { "n": "number" } }]. *)
Definition counter_template : DataTemplate := template_of [("n", VStr "number")] [].

(** [{ "schema": { "createdAt": "datetime" } }]. *)
Definition event_template : DataTemplate := template_of [("createdAt", VStr "datetime")] [].

(** A product with a price at two decimal places and nested dimensions. *)
Definition product_template : DataTemplate :=
  template_of
    [("name", VStr "string"); ("price", VStr "number");
     ("inStock", VStr "boolean");
     ("dimensions", VObj [("width", VStr "number"); ("height", VStr "number")]);
     ("tags", VArr [VStr "string"])]
    [("price", number_constraints (Some (1 # 100)) (Some 10000%Q) (Some 2));
     ("name", length_constraints (Some 5) (Some 12))].

(** A number field asked for 101 decimal places. *)
Definition overprecise_template : DataTemplate :=
  template_of [("x", VStr "number")]
    [("x", number_constraints None None (Some 101))].

Definition options_of (n : Z) (uniq : bool) : GenerationOptions :=
  {| count := Some n; locale := None; seed := None;
     variations := None; unique := Some uniq |}.

(** An instance with [templateName] already in the cache and PRNG state [s]. *)
Definition instance_with (templateName : string) (template : DataTemplate) (s : Q)
    : JSONDataGenerator :=
  {| templates := {[ templateName := template ]}; currentSeed := s |}.

(** A host whose template directory holds [counter.json] and [event.json]. *)
Definition sample_host (now : Z) : Host :=
  table_host
    {[ "/repo/cypress/utils/../data/templates/counter.json" := "counter document";
       "/repo/cypress/utils/../data/templates/event.json" := "event document";
       "/repo/cypress/utils/../data/templates/broken.json" := "{ schema: " ]}
    {[ "counter document" := counter_template;
       "event document" := event_template ]}
    now.

(** The options [{ seed: S, count: n }]. *)
Definition seeded_options (S n : Z) : GenerationOptions :=
  {| count := Some n; locale := None; seed := Some (inject_Z S);
     variations := None; unique := None |}.

(** A price between 0.01 and 10000 with no [decimal] constraint. *)
Definition price_constraints : Constraints :=
  number_constraints (Some (1 # 100)) (Some 10000%Q) None.

(** A price between 0.01 and 10000 at two decimal places. *)
Definition price2_constraints : Constraints :=
  number_constraints (Some (1 # 100)) (Some 10000%Q) (Some 2).

(** A string of at most two characters: [{ minLength: 0, maxLength: 2 }]. *)
Definition short_constraints : Constraints := length_constraints (Some 0) (Some 2).

(** A number between -10 and 0. *)
Definition nonpositive_constraints : Constraints :=
  number_constraints (Some (-10)%Q) (Some 0%Q) None.

(** A birth date up to 400000 years back. *)
Definition ancient_template : DataTemplate :=
  template_of [("born", VStr "date")]
    [("born", {| c_min := None; c_max := None; c_decimal := None;
                 c_minLength := None; c_maxLength := None;
                 c_minAge := None; c_maxAge := Some 400000; c_format := None |})].

(** [{ "schema": { "__proto__": "string", "id": "number" } }], as the parser
    holds it. *)
Definition proto_template : DataTemplate :=
  template_of (object_of_entries [("__proto__", VStr "string"); ("id", VStr "number")]) [].

(** The members of [{ "name": "string", "7": "boolean" }] in the order of
    the document, and the template with this schema. *)
Definition indexed_members : list (string * value) :=
  [("name", VStr "string"); ("7", VStr "boolean")].

Definition indexed_template : DataTemplate :=
  template_of (object_of_entries indexed_members) [].

(** ** The data generator commands

    The module keeps one generator in the variable [dataGenerator], created
    on first use by [new JSONDataGenerator()], that is, without a seed. *)

(** [getDataGenerator()]: the instance to use; [Math_random] is what
    [Math.random()] returns if the instance has to be created. *)
Definition getDataGenerator (Math_random : Q) (dataGenerator : option JSONDataGenerator)
    : JSONDataGenerator :=
  match dataGenerator with
  | Some generator => generator
  | None => new_JSONDataGenerator None Math_random
  end.

(** The command [generateData(templateName, options)]: what [generate]
    yields, and the module variable afterwards. *)
Definition cy_generateData (host : Host) (Math_random : Q)
    (dataGenerator : option JSONDataGenerator) (templateName : string)
    (options : GenerationOptions)
    : completion (list value) * list string * option JSONDataGenerator :=
  let generator := getDataGenerator Math_random dataGenerator in
  let '(data, warnings, generator') := generate host generator templateName options in
  (data, warnings, Some generator').

(** The commands [generateUser], [generateProduct] and [generateOrder]. *)
Definition cy_generateUser (host : Host) (Math_random : Q)
    (dataGenerator : option JSONDataGenerator) (options : GenerationOptions) :=
  cy_generateData host Math_random dataGenerator "user" options.

Definition cy_generateProduct (host : Host) (Math_random : Q)
    (dataGenerator : option JSONDataGenerator) (options : GenerationOptions) :=
  cy_generateData host Math_random dataGenerator "product" options.

Definition cy_generateOrder (host : Host) (Math_random : Q)
    (dataGenerator : option JSONDataGenerator) (options : GenerationOptions) :=
  cy_generateData host Math_random dataGenerator "order" options.

(** ** Further properties of values and templates *)

(** The characters of a string. *)
Definition chars (s : string) : list ascii := list_ascii_of_string s.

(** What [varyString] may return for a string [str]. *)
Definition varied (str : string) (v : value) : Prop :=
  v = VStr str
  \/ (exists n : Z, 1 <= n <= 999 /\ v = VStr (str ++ pretty n))
  \/ (exists suffix : string,
        In suffix ["_test"; "_demo"; "_sample"; "_v2"; "_new"]%string
        /\ v = VStr (str ++ suffix)).

(** An integer of at most 2^31 in magnitude. *)
Definition small_integer (x : Q) : Prop :=
  exists z : Z, (x == inject_Z z)%Q /\ Z.abs z <= 2 ^ 31.

(** No [number], [date] or [datetime] tag is reachable in [type]. *)
Fixpoint raise_free (type : value) : bool :=
  match type with
  | VStr s =>
      negb (String.eqb s "number") && negb (String.eqb s "date")
      && negb (String.eqb s "datetime")
  | VArr (t :: _) => raise_free t
  | VObj entries =>
      (fix all (entries : list (string * value)) : bool :=
         match entries with
         | [] => true
         | (_, t) :: rest => raise_free t && all rest
         end) entries
  | _ => true
  end.

(** The options with another [count]. *)
Definition with_count (options : GenerationOptions) (n : Z) : GenerationOptions :=
  {| count := Some n; locale := locale options; seed := seed options;
     variations := variations options; unique := unique options |}.

(** A template with a pooled string field and an array of enumerated
    values. *)
Definition pooled_template : DataTemplate :=
  {| schema := [("city", VStr "string"); ("roles", VArr [VStr "enum"])];
     constraints := ∅;
     enums := {[ "roles" := ["admin"; "user"; "guest"]%string ]};
     data := {[ "city" := ["Oslo"; "Lima"; "Pune"]%string ]} |}.

(** The template a call uses: the one in the cache, or else the stored
    one. *)
Definition template_in_use (host : Host) (this : JSONDataGenerator)
    (templateName : string) (template : DataTemplate) : Prop :=
  templates this !! templateName = Some template
  \/ (templates this !! templateName = None
      /\ stored_template host templateName = Some template).

#[local] Arguments Qfloor : simpl never.

(** * Properties

    ** The PRNG *)


Lemma Qtrunc_floor x : (0 <= x)%Q -> Qtrunc x = Qfloor x.
Proof.
  destruct x as [n d]. unfold Qle, Qtrunc, Qfloor. simpl. intros H.
  apply Z.quot_div_nonneg; lia.
Qed.

Lemma Qtrunc_bound x : (-1 < x - inject_Z (Qtrunc x) < 1)%Q.
Proof.
  destruct x as [n d]. unfold Qtrunc. cbn [Qnum Qden].
  pose proof (Z.quot_rem' n (Zpos d)) as E.
  pose proof (Z.rem_bound_abs n (Zpos d) ltac:(lia)) as B.
  unfold Qlt, Qminus, Qplus, Qopp, inject_Z; cbn [Qnum Qden]. lia.
Qed.

Lemma js_rem_abs x m : (0 < m)%Q -> (- m < js_rem x m < m)%Q.
Proof.
  intros Hm. unfold js_rem.
  assert (E : (x - m * inject_Z (Qtrunc (x / m)) == m * (x / m - inject_Z (Qtrunc (x / m))))%Q).
  { field. lra. }
  rewrite E.
  pose proof (Qtrunc_bound (x / m)) as B.
  nra.
Qed.

Lemma js_rem_nonneg x m : (0 <= x)%Q -> (0 < m)%Q -> (0 <= js_rem x m)%Q.
Proof.
  intros Hx Hm. unfold js_rem.
  assert (Hq : (0 <= x / m)%Q).
  { apply Qle_shift_div_l; lra. }
  rewrite (Qtrunc_floor _ Hq).
  pose proof (Qfloor_le (x / m)) as F.
  assert (E : (x == m * (x / m))%Q) by (field; lra).
  rewrite E at 1. nra.
Qed.

Lemma next_seed_abs s : (-233280 < next_seed s < 233280)%Q.
Proof.
  unfold next_seed. rewrite Qred_correct. apply (js_rem_abs _ 233280). reflexivity.
Qed.

Lemma next_seed_nonneg s : (0 <= s)%Q -> (0 <= next_seed s)%Q.
Proof.
  intros H. unfold next_seed. rewrite Qred_correct.
  apply js_rem_nonneg; [nra | reflexivity].
Qed.

(** On an integer state the update is the truncated remainder of integers. *)
Lemma next_seed_integer (z : Z) :
  next_seed (inject_Z z) = inject_Z (Z.rem (z * 9301 + 49297) 233280).
Proof.
  unfold next_seed.
  transitivity (Qred (inject_Z (Z.rem (z * 9301 + 49297) 233280))).
  - apply Qred_complete. unfold js_rem, Qtrunc.
    unfold Qeq, Qminus, Qplus, Qmult, Qdiv, Qinv, Qopp, inject_Z. cbn [Qnum Qden].
    pose proof (Z.quot_rem' (z * 9301 + 49297) 233280) as E.
    rewrite ?Pos.mul_1_l, ?Pos.mul_1_r, ?Z.mul_1_r.
    cbn [Qnum Qden Qmult]. rewrite ?Pos.mul_1_l, ?Z.mul_1_r. lia.
  - apply Qred_identity. cbn [Qnum Qden inject_Z]. apply Z.gcd_1_r.
Qed.

Lemma random_range s r s' :
  random s = Ok r s' -> (-1 < r < 1)%Q /\ ((0 <= s)%Q -> (0 <= r)%Q /\ (0 <= s')%Q).
Proof.
  unfold random. intros [= <- <-].
  pose proof (next_seed_abs s) as B. split.
  - split.
    + apply Qlt_shift_div_l; [reflexivity | lra].
    + apply Qlt_shift_div_r; [reflexivity | lra].
  - intros H. pose proof (next_seed_nonneg s H). split; [|assumption].
    apply Qle_shift_div_l; [reflexivity | lra].
Qed.

(** ** Operations derived from the PRNG *)


Lemma Qfloor_range (r : Q) (k : Z) :
  (0 <= r < 1)%Q -> 0 <= k -> 0 <= Qfloor (r * inject_Z k) <= Z.max 0 (k - 1).
Proof.
  intros Hr Hk.
  assert (Hk' : (inject_Z 0 <= inject_Z k)%Q) by (rewrite <- Zle_Qle; lia).
  change (inject_Z 0) with 0%Q in Hk'.
  split.
  - change 0 with (Qfloor 0). apply Qfloor_resp_le. nra.
  - destruct (Z.eq_dec k 0) as [-> | Hne].
    + assert (E : (r * inject_Z 0 == 0)%Q) by ring. rewrite E. reflexivity.
    + assert (Hk'' : (inject_Z 0 < inject_Z k)%Q) by (rewrite <- Zlt_Qlt; lia).
      change (inject_Z 0) with 0%Q in Hk''.
      pose proof (Qfloor_le (r * inject_Z k)) as F.
      assert (L : (inject_Z (Qfloor (r * inject_Z k)) < inject_Z k)%Q) by nra.
      rewrite <- Zlt_Qlt in L. lia.
Qed.

Lemma randomInt_range min max s n s' :
  min <= max -> (0 <= s)%Q -> randomInt min max s = Ok n s' ->
  min <= n <= max /\ (0 <= s')%Q.
Proof.
  intros Hmm Hs. unfold randomInt, bind, ret.
  destruct (random s) as [r s1 | e s1] eqn:E; [| discriminate].
  intros [= <- <-].
  destruct (random_range _ _ _ E) as [_ H]. destruct (H Hs) as [Hr Hs1].
  destruct (random_range _ _ _ E) as [[_ Hr1] _].
  pose proof (Qfloor_range r (max - min + 1) (conj Hr Hr1) ltac:(lia)).
  split; [lia | assumption].
Qed.

Lemma js_index_In {T} (array : list T) (i : Z) :
  0 <= i < Z.of_nat (length array) -> exists x, js_index array i = Some x /\ In x array.
Proof.
  intros H. unfold js_index.
  destruct (Z.ltb_spec i 0) as [|_]; [lia|].
  destruct (nth_error array (Z.to_nat i)) as [x|] eqn:E.
  - exists x. split; [reflexivity|]. eapply nth_error_In; eassumption.
  - apply nth_error_None in E. lia.
Qed.

Lemma randomChoice_In {T} (array : list T) s :
  array <> [] -> (0 <= s)%Q ->
  exists x s', randomChoice array s = Ok (Some x) s' /\ In x array /\ (0 <= s')%Q.
Proof.
  intros Hne Hs. unfold randomChoice, bind, ret.
  destruct (random s) as [r s1 | e s1] eqn:E; [| discriminate].
  destruct (random_range _ _ _ E) as [[_ Hr1] H]. destruct (H Hs) as [Hr Hs1].
  assert (Hlen : 0 < Z.of_nat (length array)) by (destruct array; [congruence | cbn; lia]).
  pose proof (Qfloor_range r (Z.of_nat (length array)) (conj Hr Hr1) ltac:(lia)) as B.
  destruct (js_index_In array (Qfloor (r * inject_Z (Z.of_nat (length array)))) ltac:(lia))
    as (x & Hx & Hin).
  exists x, s1. rewrite Hx. auto.
Qed.

(** ** Number fields *)


Lemma on_grid_spec d x :
  on_grid d x = true -> exists a : Z, (x * inject_Z (10 ^ d) == inject_Z a)%Q.
Proof.
  unfold on_grid. intros H. apply Qeq_bool_iff in H.
  eexists. symmetry. exact H.
Qed.

(** Rounding at [d] places keeps a number between two bounds that have at
    most [d] places themselves. *)
Lemma toFixed_bounds (x lo hi : Q) (d : Z) :
  0 <= d -> on_grid d lo = true -> on_grid d hi = true ->
  (lo <= x <= hi)%Q -> (lo <= toFixed x d <= hi)%Q.
Proof.
  intros Hd Hlo Hhi Hx.
  apply on_grid_spec in Hlo as [a Ha]. apply on_grid_spec in Hhi as [b Hb].
  assert (HP : (0 < inject_Z (10 ^ d))%Q).
  { change 0%Q with (inject_Z 0). rewrite <- Zlt_Qlt. apply Z.pow_pos_nonneg; lia. }
  set (P := inject_Z (10 ^ d)) in *.
  unfold toFixed. fold P.
  destruct (Qle_bool (inject_Z (10 ^ 21)) (Qabs x)); [exact Hx|].
  assert (Elo : (lo == inject_Z a / P)%Q) by (rewrite <- Ha; field; lra).
  assert (Ehi : (hi == inject_Z b / P)%Q) by (rewrite <- Hb; field; lra).
  assert (Hax : (inject_Z a <= x * P)%Q) by (rewrite <- Ha; nra).
  assert (Hxb : (x * P <= inject_Z b)%Q) by (rewrite <- Hb; nra).
  destruct (Qle_bool 0 x) eqn:Sx.
  - apply Qle_bool_iff in Sx. rewrite (Qabs_pos x Sx).
    set (n := Qfloor (x * P + (1 # 2))).
    assert (Hn : a <= n <= b).
    { split.
      - rewrite <- (Qfloor_Z a). apply Qfloor_resp_le. lra.
      - pose proof (Qfloor_le (x * P + (1 # 2))) as F. fold n in F.
        assert (L : (inject_Z n < inject_Z (b + 1))%Q) by (rewrite inject_Z_plus; change (inject_Z 1) with 1%Q; lra).
        rewrite <- Zlt_Qlt in L. lia. }
    destruct Hn as [Hn1 Hn2]. rewrite Zle_Qle in Hn1, Hn2.
    rewrite Elo, Ehi. split; apply Qmult_le_compat_r; try assumption;
      apply Qlt_le_weak, Qinv_lt_0_compat; assumption.
  - assert (Sx' : (x < 0)%Q).
    { apply Qnot_le_lt. intros C. apply Qle_bool_iff in C. congruence. }
    rewrite (Qabs_neg x) by lra.
    set (n := Qfloor (- x * P + (1 # 2))).
    assert (Hn : a <= - n <= b).
    { split.
      + pose proof (Qfloor_le (- x * P + (1 # 2))) as F. fold n in F.
        assert (L : (inject_Z n < inject_Z (- a + 1))%Q).
        { rewrite inject_Z_plus, inject_Z_opp. change (inject_Z 1) with 1%Q. lra. }
        rewrite <- Zlt_Qlt in L. lia.
      + assert (L : - b <= n).
        { rewrite <- (Qfloor_Z (- b)). apply Qfloor_resp_le. rewrite inject_Z_opp. lra. }
        lia. }
    destruct Hn as [Hn1 Hn2]. rewrite Zle_Qle in Hn1, Hn2.
    rewrite Elo, Ehi. split; apply Qmult_le_compat_r; try assumption;
      apply Qlt_le_weak, Qinv_lt_0_compat; assumption.
Qed.

Lemma or_num_spec_min c : (or_num (c_min c) 0 == spec_min c)%Q.
Proof.
  unfold or_num, spec_min. destruct (c_min c) as [q|]; [|reflexivity].
  destruct (Qeq_bool q 0) eqn:E; [|reflexivity].
  apply Qeq_bool_iff in E. symmetry. exact E.
Qed.

Lemma or_num_spec_max c : ~ (spec_max c == 0)%Q -> or_num (c_max c) 100 = spec_max c.
Proof.
  unfold or_num, spec_max. destruct (c_max c) as [q|]; [|reflexivity].
  intros H. destruct (Qeq_bool q 0) eqn:E; [|reflexivity].
  apply Qeq_bool_iff in E. contradiction.
Qed.

(** ** Exact states *)

Lemma exact_state_nonneg (s : Q) : exact_state s -> (0 <= s)%Q.
Proof.
  intros (z & -> & Hz & _). change 0%Q with (inject_Z 0). rewrite <- Zle_Qle. exact Hz.
Qed.

Lemma exact_state_integer (z : Z) : 0 <= z < 233280 -> exact_state (inject_Z z).
Proof.
  intros Hz. exists z. split; [reflexivity|]. unfold exact_seed.
  change (2 ^ 53) with 9007199254740992. lia.
Qed.

(** The exact states are closed under the generator: after one draw the
    state is an integer of [0, 233280). *)
Lemma exact_state_next (s : Q) : exact_state s -> exact_state (next_seed s).
Proof.
  intros (z & -> & Hz & _). rewrite next_seed_integer. apply exact_state_integer.
  rewrite Z.rem_mod_nonneg by lia. apply Z.mod_pos_bound. lia.
Qed.

(** ** Field generators that cannot raise *)

Lemma returns_ret {A} (a : A) (post : A -> Prop) : post a -> returns (ret a) post.
Proof. intros H s. exists a, s. auto. Qed.

Lemma returns_bind {A B} (m : Gen A) (k : A -> Gen B) (mid : A -> Prop) (post : B -> Prop) :
  returns m mid -> (forall a, mid a -> returns (k a) post) -> returns (bind m k) post.
Proof.
  intros Hm Hk s. destruct (Hm s) as (a & s1 & E & Ha).
  destruct (Hk a Ha s1) as (b & s2 & E2 & Hb).
  exists b, s2. unfold bind. rewrite E. auto.
Qed.

Lemma returns_total {A} (m : Gen A) (post : A -> Prop) : returns m post -> total m.
Proof. intros H s. destruct (H s) as (a & s' & E & _). eauto. Qed.

Lemma returns_random : returns random (fun r => (-1 < r < 1)%Q).
Proof.
  intros s. eexists _, _. split; [reflexivity|].
  eapply random_range. reflexivity.
Qed.

Lemma total_random : total random.
Proof. exact (returns_total _ _ returns_random). Qed.

Create HintDb total.
#[global] Hint Resolve total_random : total.

(** Walks a monadic body: every bound computation must be total by a lemma
    of the [total] database. *)
Ltac total_auto :=
  repeat match goal with
    | |- total _ => unfold total
    | |- returns (ret _) _ => apply returns_ret; exact I
    | |- returns (bind ?m _) _ =>
        apply (returns_bind m _ (fun _ => True));
        [change (total m); solve [eauto with total] | intros ? _]
    | |- returns (if ?b then _ else _) _ => destruct b
    | |- returns (match ?x with _ => _ end) _ => destruct x
    end.

Lemma total_randomInt lo hi : total (randomInt lo hi).
Proof. unfold randomInt. total_auto. Qed.

Lemma total_randomChoice {T} (array : list T) : total (randomChoice array).
Proof. unfold randomChoice. total_auto. Qed.

Lemma total_randomBoolean : total randomBoolean.
Proof. unfold randomBoolean. total_auto. Qed.

Lemma total_randomString_loop n charset result : total (randomString_loop n charset result).
Proof.
  revert result. induction n as [| n IH]; intros result; cbn [randomString_loop].
  - total_auto.
  - eapply returns_bind; [exact total_random | intros r _; apply IH].
Qed.

Lemma total_randomString length charset : total (randomString length charset).
Proof. apply total_randomString_loop. Qed.

Lemma total_repeatM {A} n (f : Gen A) : total f -> total (repeatM n f).
Proof.
  intros Hf. induction n as [| n IH]; cbn [repeatM].
  - total_auto.
  - eapply returns_bind; [exact Hf | intros x _].
    eapply returns_bind; [exact IH | intros xs _]. total_auto.
Qed.

#[global] Hint Resolve total_randomInt total_randomChoice
  total_randomBoolean total_randomString total_repeatM : total.

Lemma total_varyString str : total (varyString str).
Proof. unfold varyString. total_auto. Qed.

Lemma total_generateString c pool variations : total (generateString c pool variations).
Proof.
  unfold generateString. destruct pool as [[| x items] |];
    total_auto; apply total_varyString.
Qed.

Lemma total_generateNumber c :
  or_int (c_decimal c) 0 <= 100 -> total (generateNumber c).
Proof.
  intros H. unfold generateNumber.
  eapply returns_bind; [exact total_random | intros r _].
  destruct (0 <? or_int (c_decimal c) 0); [| total_auto].
  destruct (Z.leb_spec (or_int (c_decimal c) 0) 100); [total_auto | lia].
Qed.

Lemma total_generateEmail : total generateEmail.
Proof. unfold generateEmail. total_auto. Qed.

Lemma total_generatePhone c : total (generatePhone c).
Proof. unfold generatePhone. total_auto. Qed.

Lemma total_generateUrl : total generateUrl.
Proof. unfold generateUrl. total_auto. Qed.

Lemma total_generateEnum enum : total (generateEnum enum).
Proof. unfold generateEnum. destruct enum as [[| x items] |]; total_auto. Qed.

Lemma total_generateText_loop fuel length currentLength sentences :
  total (generateText_loop fuel length currentLength sentences).
Proof.
  revert currentLength sentences.
  induction fuel as [| fuel IH]; intros currentLength sentences; cbn [generateText_loop].
  - total_auto.
  - destruct (currentLength <? length); [| total_auto].
    eapply returns_bind; [apply total_randomInt | intros n _].
    eapply returns_bind; [apply total_repeatM, total_randomChoice | intros ws _].
    apply IH.
Qed.

Lemma total_generateText pool c : total (generateText pool c).
Proof.
  unfold generateText. destruct pool as [[| x items] |]; total_auto;
    eapply returns_bind; try apply total_generateText_loop; intros; total_auto.
Qed.

(** *** Dates *)

Lemma Qabs_inject_Z z : Qabs (inject_Z z) = inject_Z (Z.abs z).
Proof. reflexivity. Qed.

Lemma Qtrunc_inject_Z z : Qtrunc (inject_Z z) = z.
Proof. unfold Qtrunc, inject_Z. cbn [Qnum Qden]. apply Z.quot_1_r. Qed.

Lemma TimeClip_inject_Z z :
  Z.abs z <= 8640000000000000 -> TimeClip (inject_Z z) = Some z.
Proof.
  intros H. unfold TimeClip. rewrite Qabs_inject_Z, Qtrunc_inject_Z.
  destruct (Qle_bool _ _) eqn:E; [reflexivity|].
  rewrite Zle_Qle in H. apply Qle_bool_iff in H. congruence.
Qed.

Lemma TimeClip_valid t :
  (Qabs t <= inject_Z 8640000000000000)%Q -> exists tv, TimeClip t = Some tv.
Proof.
  intros H. unfold TimeClip. apply Qle_bool_iff in H. rewrite H. eauto.
Qed.

Lemma days_from_civil_bound y m :
  Z.abs y <= 80100 -> m = 1 \/ m = 12 ->
  Z.abs (days_from_civil y m 1) <= 30100000.
Proof.
  intros Hy [-> | ->]; unfold days_from_civil; cbn [Z.leb Z.ltb Z.compare Pos.compare Pos.compare_cont];
    cbv zeta; Z.div_mod_to_equations; lia.
Qed.

Lemma Date_ymd_valid year monthIndex day :
  Z.abs year <= 80000 ->
  (monthIndex = 0 /\ day = 1) \/ (monthIndex = 11 /\ day = 31) ->
  exists a, Date_ymd year monthIndex day = Some a /\ Z.abs a <= 2601000000000000.
Proof.
  intros Hy Hmd. unfold Date_ymd.
  set (yr := if (0 <=? year) && (year <=? 99) then 1900 + year else year).
  assert (Hyr : Z.abs yr <= 80100).
  { subst yr. destruct ((0 <=? year) && (year <=? 99)) eqn:E; [| lia].
    apply andb_prop in E as [E1 E2]. lia. }
  assert (Hm : monthIndex + 1 = 1 \/ monthIndex + 1 = 12) by lia.
  pose proof (days_from_civil_bound yr (monthIndex + 1) Hyr Hm) as B.
  assert (Hd : 0 <= day - 1 <= 30) by lia.
  eexists. split.
  - apply TimeClip_inject_Z. unfold msPerDay. lia.
  - unfold msPerDay. lia.
Qed.

Lemma between_valid a b r :
  Z.abs a <= 2601000000000000 -> Z.abs b <= 2601000000000000 -> (-1 < r < 1)%Q ->
  exists t, between (Some a) (Some b) r = Some t
            /\ (Qabs t <= inject_Z 8640000000000000)%Q.
Proof.
  intros Ha Hb Hr. eexists. split; [reflexivity|].
  assert (A1 : (inject_Z (-2601000000000000) <= inject_Z a <= inject_Z 2601000000000000)%Q)
    by (rewrite <- !Zle_Qle; lia).
  assert (B1 : (inject_Z (-2601000000000000) <= inject_Z b <= inject_Z 2601000000000000)%Q)
    by (rewrite <- !Zle_Qle; lia).
  change (inject_Z (-2601000000000000)) with (-2601000000000000)%Q in *.
  change (inject_Z 2601000000000000) with 2601000000000000%Q in *.
  change (inject_Z 8640000000000000) with 8640000000000000%Q.
  apply Qabs_Qle_condition. split; nra.
Qed.

Lemma returns_isoOfTimestamp t :
  (Qabs t <= inject_Z 8640000000000000)%Q -> total (isoOfTimestamp (Some t)).
Proof.
  intros H. unfold isoOfTimestamp.
  destruct (TimeClip_valid t H) as [tv ->]. total_auto.
Qed.

Lemma total_generateDate now c :
  constraints_safe now c = true -> total (generateDate now c).
Proof.
  unfold constraints_safe. intros H.
  apply andb_prop in H as [H Hmin]. apply andb_prop in H as [_ Hmax].
  apply Z.leb_le in Hmin, Hmax.
  unfold generateDate.
  destruct (Date_ymd_valid (getFullYear now - or_int (c_maxAge c) 100) 0 1 Hmax)
    as (a & -> & Ha); [lia|].
  destruct (Date_ymd_valid (getFullYear now - or_int (c_minAge c) 0) 11 31 Hmin)
    as (b & -> & Hb); [lia|].
  eapply returns_bind; [exact returns_random | intros r Hr].
  destruct (between_valid a b r Ha Hb Hr) as (t & -> & Ht).
  eapply returns_bind; [apply returns_isoOfTimestamp; exact Ht | intros iso _].
  total_auto.
Qed.

Lemma total_generateDateTime now :
  Z.abs now <= 8000000000000000 -> total (generateDateTime now).
Proof.
  intros H. unfold generateDateTime.
  rewrite !TimeClip_inject_Z by lia.
  eapply returns_bind; [exact returns_random | intros r Hr].
  eapply returns_bind; [| intros iso _; total_auto].
  apply returns_isoOfTimestamp. cbn [between].
  set (p := now - 365 * 24 * 60 * 60 * 1000).
  set (f := now + 30 * 24 * 60 * 60 * 1000).
  assert (P1 : (inject_Z (-8000031536000000) <= inject_Z p <= inject_Z 8000000000000000)%Q)
    by (rewrite <- !Zle_Qle; subst p; lia).
  assert (F1 : (inject_Z f - inject_Z p == 34128000000)%Q).
  { unfold Qminus. rewrite <- inject_Z_opp, <- inject_Z_plus.
    replace (f + - p) with 34128000000 by (subst f p; lia). reflexivity. }
  change (inject_Z (-8000031536000000)) with (-8000031536000000)%Q in *.
  change (inject_Z 8000000000000000) with 8000000000000000%Q in *.
  change (inject_Z 8640000000000000) with 8640000000000000%Q.
  cbv beta in Hr. apply Qabs_Qle_condition. rewrite F1. split; lra.
Qed.

(** *** The walker and the batch loop *)

Lemma total_ext {A} (m m' : Gen A) : (forall s, m s = m' s) -> total m' -> total m.
Proof. intros E H s. rewrite E. apply H. Qed.

(** The nested case of [generateFieldValue] is the loop [generateFields]. *)
Lemma generateFieldValue_object now template variations field entries s :
  generateFieldValue now template variations field (VObj entries) s
  = generateFields now template variations entries [] s.
Proof.
  cbn [generateFieldValue]. generalize (@nil (string * value)). revert s.
  induction entries as [| [k t] rest IH]; intros s record; cbn [generateFields].
  - reflexivity.
  - unfold bind. destruct (generateFieldValue now template variations k t s); [| reflexivity].
    apply IH.
Qed.

Lemma template_safe_lookup now template field :
  template_safe now template = true ->
  constraints_safe now (lookup_constraints template field) = true.
Proof.
  unfold template_safe, lookup_constraints. intros H.
  apply andb_prop in H as [H Hall]. apply andb_prop in H as [_ Hnone].
  destruct (constraints template !! field) as [c |] eqn:E; [| exact Hnone].
  apply bool_decide_eq_true in Hall. exact (Hall field c E).
Qed.

Lemma total_generatePrimitive now template variations field type :
  template_safe now template = true ->
  total (generatePrimitive now template variations field type).
Proof.
  intros Hsafe.
  pose proof (template_safe_lookup now template field Hsafe) as Hc.
  assert (Hnow : Z.abs now <= 8000000000000000).
  { unfold template_safe in Hsafe. apply andb_prop in Hsafe as [H _].
    apply andb_prop in H as [H _]. apply Z.leb_le. exact H. }
  assert (Hdec : or_int (c_decimal (lookup_constraints template field)) 0 <= 100).
  { unfold constraints_safe in Hc. apply andb_prop in Hc as [H _].
    apply andb_prop in H as [H _]. apply Z.leb_le. exact H. }
  unfold generatePrimitive.
  repeat match goal with
         | |- total (if ?b then _ else _) => destruct b
         | |- total (match ?x with _ => _ end) => destruct x
         end;
    auto using total_generateString, total_generateNumber, total_generateEmail,
      total_generatePhone, total_generateDate, total_generateDateTime,
      total_generateUrl, total_generateText, total_generateEnum.
  total_auto.
Qed.

Lemma total_generateFields now template variations entries :
  Forall (fun kv => forall field,
            total (generateFieldValue now template variations field (snd kv))) entries ->
  forall record, total (generateFields now template variations entries record).
Proof.
  induction 1 as [| [k t] rest Hkt _ IH]; intros record; cbn [generateFields].
  - total_auto.
  - eapply returns_bind; [apply Hkt | intros v _; apply IH].
Qed.

Lemma total_generateFieldValue now template variations type :
  template_safe now template = true ->
  forall field, total (generateFieldValue now template variations field type).
Proof.
  intros Hsafe. induction type as [| | | b | q | s | l IH | l IH] using value_ind;
    intros field;
    try (cbn [generateFieldValue]; apply total_generatePrimitive; assumption).
  - cbn [generateFieldValue].
    eapply returns_bind; [apply total_randomInt | intros n _].
    eapply returns_bind; [| intros vs _; total_auto].
    apply total_repeatM. destruct l as [| t rest].
    + apply total_generatePrimitive; assumption.
    + inversion IH; subst. auto.
  - eapply total_ext; [intros s; apply generateFieldValue_object |].
    apply total_generateFields. exact IH.
Qed.

Lemma total_generateSingleRecord now template variations :
  template_safe now template = true ->
  total (generateSingleRecord now template variations).
Proof.
  intros Hsafe. unfold generateSingleRecord. apply total_generateFields.
  apply Forall_forall. intros kv _ field. apply total_generateFieldValue. exact Hsafe.
Qed.

Lemma total_attempt_loop host template variations unique remaining attempts generatedValues :
  total (generateSingleRecord (Date_now host) template variations) ->
  total (attempt_loop host template variations unique remaining attempts generatedValues).
Proof.
  intros Hrec. revert attempts.
  induction remaining as [| remaining IH]; intros attempts; cbn [attempt_loop];
    (eapply returns_bind; [exact Hrec | intros data _]).
  - total_auto.
  - destruct (_ && _ && _); [apply IH | total_auto].
Qed.

(** Every iteration of the batch loop appends exactly one record, whether or
    not the retry budget was used up. *)
Lemma generate_loop_length host template variations unique :
  total (generateSingleRecord (Date_now host) template variations) ->
  forall n results generatedValues warnings s,
  exists records warnings' s',
    generate_loop host template variations unique n results generatedValues warnings s
    = (Returns records, warnings', s')
    /\ length records = (length results + n)%nat.
Proof.
  intros Hrec. induction n as [| n IH]; intros results generatedValues warnings s;
    cbn [generate_loop].
  - exists results, warnings, s. split; [reflexivity | lia].
  - destruct (total_attempt_loop host template variations unique
                (Z.to_nat (maxAttempts unique)) 0 generatedValues Hrec s)
      as ([data attempts] & s1 & -> & _).
    match goal with
    | |- context [generate_loop _ _ _ _ n ?r ?g ?w s1] =>
        destruct (IH r g w s1) as (records & warnings' & s' & E & L)
    end.
    exists records, warnings', s'. split; [exact E|].
    rewrite L, length_app. cbn [length]. lia.
Qed.

(** ** Shape of generated records *)

Lemma has_own_In record field : has_own record field = true <-> In field (keys record).
Proof.
  unfold has_own. rewrite existsb_exists. split.
  - intros (k & Hk & E). apply String.eqb_eq in E. subst k. exact Hk.
  - intros H. exists field. split; [exact H | apply String.eqb_refl].
Qed.

Lemma insert_index_last i field v record :
  array_index field = Some i ->
  Forall (fun k => enumerated_before k field = true) (keys record) ->
  insert_index i field v record = record ++ [(field, v)].
Proof.
  intros Hi. induction record as [| [k w] rest IH]; cbn [insert_index keys map fst app];
    intros H; [reflexivity|].
  inversion H as [| ? ? Hk Hrest]; subst. unfold enumerated_before in Hk. rewrite Hi in Hk.
  destruct (array_index k) as [j |]; [| discriminate].
  apply N.ltb_lt in Hk. destruct (N.ltb_spec i j) as [Hlt | _]; [lia|].
  f_equal. apply IH. exact Hrest.
Qed.

(** An assignment of a new name that comes last in enumeration order adds
    the property at the end. *)
Lemma obj_set_fresh record field v :
  field <> "__proto__"%string ->
  ~ In field (keys record) ->
  Forall (fun k => enumerated_before k field = true) (keys record) ->
  obj_set record field v = record ++ [(field, v)].
Proof.
  intros Hproto Hfresh Horder. unfold obj_set, define_property.
  destruct (String.eqb_spec field "__proto__") as [E | _]; [contradiction|].
  destruct (has_own record field) eqn:Hown.
  - apply has_own_In in Hown. contradiction.
  - destruct (array_index field) as [i |] eqn:Hi; [| reflexivity].
    apply insert_index_last; assumption.
Qed.

Lemma forallb_Forall {A} (f : A -> bool) (l : list A) :
  forallb f l = true -> Forall (fun x => f x = true) l.
Proof.
  intros H. apply List.Forall_forall. apply forallb_forall. exact H.
Qed.

Lemma enumeration_order_app a k b :
  enumeration_order (a ++ k :: b) = true ->
  Forall (fun x => enumerated_before x k = true) a.
Proof.
  induction a as [| x a IH]; cbn [app enumeration_order]; intros H; constructor.
  - apply andb_prop in H as [H _]. rewrite forallb_app in H.
    apply andb_prop in H as [_ H]. cbn [forallb] in H.
    apply andb_prop in H as [H _]. exact H.
  - apply IH. apply andb_prop in H as [_ H]. exact H.
Qed.

Lemma conforms_object entries props :
  conforms (VObj entries) (VObj props) = conforms_fields entries props.
Proof.
  destruct entries; reflexivity.
Qed.

Lemma conforms_fields_keys entries props :
  conforms_fields entries props = true -> keys props = keys entries.
Proof.
  revert props. induction entries as [| [k t] rest IH]; intros [| [k' x] props];
    cbn [conforms_fields keys map fst]; try discriminate; [reflexivity|].
  intros H. apply andb_prop in H as [H Hrest]. apply andb_prop in H as [Hk _].
  apply String.eqb_eq in Hk. subst k'. f_equal. apply IH. exact Hrest.
Qed.

Lemma wf_value_object entries :
  wf_value (VObj entries) = true ->
  NoDup (keys entries) /\ enumeration_order (keys entries) = true
  /\ Forall (fun kv => wf_value (snd kv) = true) entries.
Proof.
  cbn [wf_value]. intros H. apply andb_prop in H as [H Hall].
  apply andb_prop in H as [Hnd Hord]. split; [| split].
  - apply bool_decide_eq_true in Hnd. exact Hnd.
  - exact Hord.
  - clear Hnd Hord. induction entries as [| [k t] rest IH]; constructor.
    + apply andb_prop in Hall as [Ht _]. exact Ht.
    + apply IH. apply andb_prop in Hall as [_ Hr]. exact Hr.
Qed.

Lemma proto_free_object entries :
  proto_free (VObj entries) = true ->
  ~ In "__proto__"%string (keys entries)
  /\ Forall (fun kv => proto_free (snd kv) = true) entries.
Proof.
  cbn [proto_free]. induction entries as [| [k t] rest IH];
    cbn [keys map fst In]; intros H.
  - split; [tauto | constructor].
  - apply andb_prop in H as [H Hr]. apply andb_prop in H as [Hk Ht].
    apply IH in Hr as [Hn Hf]. split.
    + intros [E | C]; [| exact (Hn C)]. subst k. discriminate Hk.
    + constructor; assumption.
Qed.

Lemma repeatM_Forall {A} (P : A -> Prop) (f : Gen A) :
  (forall s x s', f s = Ok x s' -> P x) ->
  forall n s xs s', repeatM n f s = Ok xs s' -> Forall P xs.
Proof.
  intros Hf. induction n as [| n IH]; intros s xs s'; cbn [repeatM]; unfold bind, ret.
  - intros [= <- _]. constructor.
  - destruct (f s) as [x s1 | e s1] eqn:E; [| discriminate].
    destruct (repeatM n f s1) as [ys s2 | e s2] eqn:E2; [| discriminate].
    intros [= <- _]. constructor; eauto.
Qed.

Lemma generateFields_shape now template variations entries :
  Forall (fun kv => forall field s x s',
            generateFieldValue now template variations field (snd kv) s = Ok x s' ->
            conforms (snd kv) x = true) entries ->
  ~ In "__proto__"%string (keys entries) ->
  forall record s R s',
    NoDup (keys record ++ keys entries) ->
    enumeration_order (keys record ++ keys entries) = true ->
    generateFields now template variations entries record s = Ok R s' ->
    exists props, R = VObj (record ++ props) /\ conforms_fields entries props = true.
Proof.
  induction 1 as [| [k t] rest Hkt _ IH]; intros Hproto record s R s' Hnd Hord;
    cbn [generateFields].
  - unfold ret. intros [= <- _]. exists []. rewrite app_nil_r. auto.
  - unfold bind. cbn [snd] in Hkt.
    destruct (generateFieldValue now template variations k t s) as [x s1 | e s1] eqn:E;
      [| discriminate].
    cbn [keys map fst] in Hnd, Hord, Hproto.
    assert (Hfresh : ~ In k (keys record)).
    { intros C. apply NoDup_app in Hnd as (_ & Hdis & _).
      apply (Hdis k); [apply list_elem_of_In; exact C | left]. }
    assert (Hk : k <> "__proto__"%string).
    { intros C. apply Hproto. left. exact C. }
    rewrite (obj_set_fresh record k x Hk Hfresh (enumeration_order_app _ _ _ Hord)).
    intros Hrest. apply IH in Hrest as (props & -> & Hc).
    + exists ((k, x) :: props). split.
      * rewrite <- app_assoc. reflexivity.
      * cbn [conforms_fields]. rewrite String.eqb_refl, (Hkt k s x s1 E), Hc. reflexivity.
    + intros C. apply Hproto. right. exact C.
    + unfold keys in *. rewrite map_app, <- app_assoc. exact Hnd.
    + unfold keys in *. rewrite map_app, <- app_assoc. exact Hord.
Qed.

Lemma generateFieldValue_shape now template variations type :
  wf_value type = true ->
  proto_free type = true ->
  forall field s x s',
    generateFieldValue now template variations field type s = Ok x s' ->
    conforms type x = true.
Proof.
  induction type as [| | | b | q | str | l IH | l IH] using value_ind;
    intros Hwf Hpf field s x s'; try reflexivity.
  - cbn [generateFieldValue]. unfold bind, ret.
    destruct (randomInt 1 5 s) as [n s1 | e s1]; [| discriminate].
    destruct (repeatM _ _ s1) as [vs s2 | e s2] eqn:E; [| discriminate].
    intros [= <- _]. destruct l as [| t rest]; [reflexivity|].
    cbn [conforms]. apply forallb_forall. intros v Hv.
    eapply (repeatM_Forall (fun v => conforms t v = true)) in E.
    + rewrite List.Forall_forall in E. apply E. exact Hv.
    + inversion IH as [| ? ? Ht _]; subst. cbn [wf_value proto_free forallb] in Hwf, Hpf.
      apply andb_prop in Hwf as [Hwt _]. apply andb_prop in Hpf as [Hpt _].
      intros s0 x0 s0'. apply Ht; assumption.
  - rewrite generateFieldValue_object. intros E.
    apply wf_value_object in Hwf as (Hnd & Hord & Hall).
    apply proto_free_object in Hpf as [Hproto Hfree].
    eapply generateFields_shape in E.
    + destruct E as (props & -> & Hc). cbn [app]. rewrite conforms_object. exact Hc.
    + rewrite List.Forall_forall in *. intros kv Hkv f0 s0 x0 s0'.
      apply IH; [exact Hkv | apply Hall; exact Hkv | apply Hfree; exact Hkv].
    + exact Hproto.
    + exact Hnd.
    + exact Hord.
Qed.

(** ** Independence from the clock *)

Lemma generatePrimitive_clock now1 now2 template variations field type s :
  clock_free type = true ->
  generatePrimitive now1 template variations field type s
  = generatePrimitive now2 template variations field type s.
Proof.
  intros Hfree. unfold generatePrimitive.
  assert (Hd : is_tag type "date" = false /\ is_tag type "datetime" = false).
  { destruct type; try (split; reflexivity).
    cbn [clock_free is_tag] in *. apply andb_prop in Hfree as [H1 H2].
    split; [destruct (String.eqb s0 "date") | destruct (String.eqb s0 "datetime")];
      (reflexivity || discriminate). }
  destruct Hd as [-> ->]. reflexivity.
Qed.

Lemma repeatM_ext {A} (f g : Gen A) :
  (forall s, f s = g s) -> forall n s, repeatM n f s = repeatM n g s.
Proof.
  intros Hfg. induction n as [| n IH]; intros s; cbn [repeatM]; [reflexivity|].
  unfold bind. rewrite Hfg. destruct (g s) as [x s1 | e s1]; [| reflexivity].
  rewrite IH. reflexivity.
Qed.

Lemma clock_free_object entries :
  clock_free (VObj entries) = true ->
  Forall (fun kv => clock_free (snd kv) = true) entries.
Proof.
  cbn [clock_free]. induction entries as [| [k t] rest IH]; intros H; constructor.
  - apply andb_prop in H as [Ht _]. exact Ht.
  - apply IH. apply andb_prop in H as [_ Hr]. exact Hr.
Qed.

Lemma generateFields_clock now1 now2 template variations entries :
  Forall (fun kv => forall field s,
            generateFieldValue now1 template variations field (snd kv) s
            = generateFieldValue now2 template variations field (snd kv) s) entries ->
  forall record s,
    generateFields now1 template variations entries record s
    = generateFields now2 template variations entries record s.
Proof.
  induction 1 as [| [k t] rest Hkt _ IH]; intros record s; cbn [generateFields];
    [reflexivity|].
  unfold bind. cbn [snd] in Hkt. rewrite Hkt.
  destruct (generateFieldValue now2 template variations k t s); [| reflexivity].
  apply IH.
Qed.

Lemma generateFieldValue_clock now1 now2 template variations type :
  clock_free type = true ->
  forall field s,
    generateFieldValue now1 template variations field type s
    = generateFieldValue now2 template variations field type s.
Proof.
  induction type as [| | | b | q | str | l IH | l IH] using value_ind;
    intros Hfree field s;
    try (cbn [generateFieldValue]; apply generatePrimitive_clock; exact Hfree).
  - cbn [generateFieldValue]. unfold bind.
    destruct (randomInt 1 5 s) as [n s1 | e s1]; [| reflexivity].
    rewrite (repeatM_ext _
               match l with
               | arrayType :: _ => generateFieldValue now2 template variations field arrayType
               | [] => generatePrimitive now2 template variations field VUndef
               end); [reflexivity|].
    intros s0. destruct l as [| t rest].
    + apply generatePrimitive_clock. reflexivity.
    + inversion IH as [| ? ? Ht _]; subst. apply Ht. exact Hfree.
  - rewrite !generateFieldValue_object. apply generateFields_clock.
    apply clock_free_object in Hfree. rewrite List.Forall_forall in *.
    intros kv Hkv f0 s0. apply IH; [exact Hkv | apply Hfree; exact Hkv].
Qed.

Lemma generateSingleRecord_clock now1 now2 template variations s :
  clock_free (VObj (schema template)) = true ->
  generateSingleRecord now1 template variations s
  = generateSingleRecord now2 template variations s.
Proof.
  intros Hfree. unfold generateSingleRecord.
  rewrite <- !(generateFieldValue_object _ _ _ EmptyString).
  apply generateFieldValue_clock. exact Hfree.
Qed.

Section SameSerializer.

Variables (h1 h2 : Host) (template : DataTemplate) (variations unique : bool).
Hypothesis Hstringify : JSON_stringify h1 = JSON_stringify h2.
Hypothesis Hrecord : forall s,
  generateSingleRecord (Date_now h1) template variations s
  = generateSingleRecord (Date_now h2) template variations s.

Lemma attempt_loop_ext remaining attempts generatedValues s :
  attempt_loop h1 template variations unique remaining attempts generatedValues s
  = attempt_loop h2 template variations unique remaining attempts generatedValues s.
Proof.
  revert attempts s. induction remaining as [| remaining IH]; intros attempts s;
    cbn [attempt_loop]; unfold bind, isDuplicate; rewrite Hrecord, Hstringify;
    destruct (generateSingleRecord _ _ _ s); try reflexivity.
  destruct (_ && _ && _); [apply IH | reflexivity].
Qed.

Lemma generate_loop_ext n results generatedValues warnings s :
  generate_loop h1 template variations unique n results generatedValues warnings s
  = generate_loop h2 template variations unique n results generatedValues warnings s.
Proof.
  revert results generatedValues warnings s.
  induction n as [| n IH]; intros results generatedValues warnings s;
    cbn [generate_loop]; [reflexivity|].
  rewrite attempt_loop_ext, Hstringify.
  destruct (attempt_loop h2 _ _ _ _ _ _ s) as [[data attempts] s1 | e s1];
    [apply IH | reflexivity].
Qed.

End SameSerializer.

Lemma or_num_nonzero (S : Z) (d : Q) : S <> 0 -> or_num (Some (inject_Z S)) d = inject_Z S.
Proof.
  intros H. unfold or_num. destruct (Qeq_bool (inject_Z S) 0) eqn:E; [| reflexivity].
  apply Qeq_bool_iff in E. exfalso. apply H.
  unfold Qeq, inject_Z in E. cbn [Qnum Qden] in E. lia.
Qed.

(** ** The loops run out of condition, never out of fuel *)

(** With [remaining >= maxAttempts - attempts - 1] the retry loop satisfies
    the equation of the [do ... while] it embeds. *)
Lemma attempt_loop_unfold host template variations unique remaining attempts gv s :
  maxAttempts unique - attempts - 1 <= Z.of_nat remaining ->
  attempt_loop host template variations unique remaining attempts gv s
  = match generateSingleRecord (Date_now host) template variations s with
    | Ok data s1 =>
        if unique && isDuplicate host data gv && (attempts + 1 <? maxAttempts unique)
        then attempt_loop host template variations unique (Nat.pred remaining)
               (attempts + 1) gv s1
        else Ok (data, attempts + 1) s1
    | Raise e s1 => Raise e s1
    end.
Proof.
  intros Hfuel. destruct remaining as [| remaining]; cbn [attempt_loop Nat.pred]; unfold bind.
  - destruct (generateSingleRecord _ _ _ s) as [data s1 | e s1]; [| reflexivity].
    destruct (Z.ltb_spec (attempts + 1) (maxAttempts unique)) as [Hlt | _]; [lia|].
    rewrite andb_false_r. reflexivity.
  - destruct (generateSingleRecord _ _ _ s) as [data s1 | e s1]; [| reflexivity].
    destruct (_ && _ && _); reflexivity.
Qed.

Lemma attempt_loop_fuel host template variations unique gv :
  forall r1 r2 attempts s,
    maxAttempts unique - attempts - 1 <= Z.of_nat r1 ->
    maxAttempts unique - attempts - 1 <= Z.of_nat r2 ->
    attempt_loop host template variations unique r1 attempts gv s
    = attempt_loop host template variations unique r2 attempts gv s.
Proof.
  induction r1 as [| r1 IH]; intros r2 attempts s H1 H2;
    rewrite (attempt_loop_unfold _ _ _ _ _ _ _ _ H1), (attempt_loop_unfold _ _ _ _ r2 _ _ _ H2);
    destruct (generateSingleRecord _ _ _ s) as [data s1 | e s1]; try reflexivity;
    destruct (Z.ltb_spec (attempts + 1) (maxAttempts unique)) as [Hlt | Hge];
    rewrite ?andb_false_r, ?andb_true_r; try reflexivity.
  - lia.
  - destruct (unique && isDuplicate host data gv); [| reflexivity].
    cbn [Nat.pred]. apply IH; lia.
Qed.

(** What the retry loop returns: between 1 and [maxAttempts] attempts were
    made, and when fewer than [maxAttempts] were needed under [unique], the
    record returned is not a duplicate. *)
Lemma attempt_loop_attempts host template variations unique gv :
  forall remaining attempts s data n s',
    0 <= attempts ->
    maxAttempts unique - attempts - 1 <= Z.of_nat remaining ->
    attempt_loop host template variations unique remaining attempts gv s = Ok (data, n) s' ->
    attempts < n <= Z.max (attempts + 1) (maxAttempts unique)
    /\ (unique = true -> n < maxAttempts unique -> isDuplicate host data gv = false).
Proof.
  induction remaining as [| remaining IH]; intros attempts s data n s' H0 Hfuel;
    cbn [attempt_loop]; unfold bind, ret;
    destruct (generateSingleRecord _ _ _ s) as [d s1 | e s1]; try discriminate;
    destruct unique; cbn [andb];
    destruct (isDuplicate host d gv) eqn:Hdup; cbn [andb];
    destruct (Z.ltb_spec (attempts + 1) (maxAttempts true)) as [Hlt | Hge];
    try (intros [= <- <- <-]; split; [lia | intros; (congruence || lia)]).
  intros E. apply IH in E as [E1 E2]; [| lia | lia]. split; [lia | exact E2].
Qed.

Lemma string_length_append (a b : string) :
  String.length (a ++ b) = (String.length a + String.length b)%nat.
Proof.
  induction a as [| c a IH]; [reflexivity|].
  change (S (String.length (a ++ b)) = S (String.length a + String.length b)).
  f_equal. exact IH.
Qed.

Lemma generateText_loop_fuel length :
  forall f1 f2 currentLength sentences s,
    length - currentLength <= Z.of_nat f1 ->
    length - currentLength <= Z.of_nat f2 ->
    generateText_loop f1 length currentLength sentences s
    = generateText_loop f2 length currentLength sentences s.
Proof.
  induction f1 as [| f1 IH]; intros [| f2] currentLength sentences s H1 H2;
    cbn [generateText_loop];
    destruct (Z.ltb_spec currentLength length) as [Hlt | Hge]; try reflexivity; try lia.
  unfold bind. destruct (randomInt 5 15 s) as [n s1 | e s1]; [| reflexivity].
  destruct (repeatM _ _ s1) as [ws s2 | e s2]; [| reflexivity].
  apply IH; lia.
Qed.

(** ** String fields *)

Lemma get_in_range (n : nat) (s : string) :
  (n < String.length s)%nat -> exists c, String.get n s = Some c.
Proof.
  revert n. induction s as [| c s IH]; intros n H; cbn in H; [lia|].
  destruct n as [| n]; cbn; [eauto | apply IH; lia].
Qed.

Lemma charAt_length charset i :
  0 <= i < Z.of_nat (String.length charset) -> String.length (charAt charset i) = 1%nat.
Proof.
  intros H. unfold charAt. destruct (Z.ltb_spec i 0); [lia|].
  destruct (get_in_range (Z.to_nat i) charset ltac:(lia)) as [c ->]. reflexivity.
Qed.

Lemma randomString_loop_length charset :
  charset <> EmptyString ->
  forall n result s str s',
    (0 <= s)%Q ->
    randomString_loop n charset result s = Ok str s' ->
    String.length str = (String.length result + n)%nat /\ (0 <= s')%Q.
Proof.
  intros Hne. induction n as [| n IH]; intros result s str s' Hs;
    cbn [randomString_loop]; unfold bind, ret.
  - intros [= <- <-]. split; [lia | exact Hs].
  - destruct (random s) as [r s1 | e s1] eqn:E; [| discriminate].
    destruct (random_range _ _ _ E) as [[_ Hr1] H]. destruct (H Hs) as [Hr Hs1].
    intros E2. apply IH in E2 as [-> Hs']; [| exact Hs1]. split; [| exact Hs'].
    assert (Hlen : 0 < Z.of_nat (String.length charset)).
    { destruct charset; [congruence | cbn; lia]. }
    pose proof (Qfloor_range r (Z.of_nat (String.length charset)) (conj Hr Hr1) ltac:(lia)).
    rewrite string_length_append, charAt_length by lia. lia.
Qed.

(** X19.  Away from the zero bounds, a synthesized string (no data pool)
    has a length within the bounds of its field: with
    [0 <= minLength <= maxLength] as the generator reads them (3 and 20 when
    absent or zero), [maxLength] at most 10^8, from a regular state. *)
Lemma generateString_length (c : Constraints) (variations : bool) (s : Q) (v : value) (s' : Q) :
  let minLength := or_int (c_minLength c) 3 in
  let maxLength := or_int (c_maxLength c) 20 in
  0 <= minLength <= maxLength ->
  bounded_length maxLength ->
  regular_state s ->
  generateString c None variations s = Ok v s' ->
  exists str, v = VStr str /\ minLength <= Z.of_nat (String.length str) <= maxLength.
Proof.
  intros minLength maxLength Hb _ [Hs _]. unfold generateString, bind, ret.
  fold minLength maxLength.
  destruct (randomInt minLength maxLength s) as [n s1 | e s1] eqn:E; [| discriminate].
  destruct (randomInt_range minLength maxLength s n s1 (proj2 Hb) Hs E) as [Hn Hs1].
  destruct (randomString n default_charset s1) as [str s2 | e s2] eqn:E2; [| discriminate].
  intros [= <- <-]. exists str. split; [reflexivity|].
  unfold randomString in E2.
  apply randomString_loop_length in E2 as [-> _]; [| discriminate | exact Hs1].
  cbn [String.length]. lia.
Qed.

(** ** The claims *)

(** C1 (as amended).  Determinism: for every non-zero integer seed [S], two
    freshly constructed generators seeded with [S] return identical results
    for the same template name and options, whatever [Math.random()] would
    have supplied, when the two calls read the same clock, or, at any two
    clock readings, when the stored template has no [date] or [datetime]
    field. *)
Theorem generate_same_seed_same_records (host : Host) (S : Z) (e1 e2 : Q)
    (now1 now2 : Z) (templateName : string) (options : GenerationOptions) :
  S <> 0 ->
  (now1 = now2
   \/ forall template, stored_template host templateName = Some template ->
                       clock_free (VObj (schema template)) = true) ->
  generate (at_time host now1) (new_JSONDataGenerator (Some (inject_Z S)) e1)
    templateName options
  = generate (at_time host now2) (new_JSONDataGenerator (Some (inject_Z S)) e2)
      templateName options.
Proof.
  intros HS Hclock. unfold new_JSONDataGenerator. rewrite !(or_num_nonzero S) by exact HS.
  unfold generate. cbn [templates]. rewrite lookup_empty.
  unfold loadTemplate, or_str. cbn [readFileSync JSON_parse join_dirname at_time templates currentSeed].
  unfold stored_template in Hclock.
  destruct (readFileSync host _) as [text | e]; [| reflexivity].
  destruct (JSON_parse host text) as [template | e]; [| reflexivity].
  cbn [templates currentSeed].
  rewrite (generate_loop_ext (at_time host now1) (at_time host now2)); [reflexivity .. |].
  intros s. cbn [Date_now at_time]. destruct Hclock as [-> | Hfree]; [reflexivity|].
  apply generateSingleRecord_clock. apply Hfree. reflexivity.
Qed.

(** C3 (as amended).  Numeric bounds: for a number field whose bounds
    [m <= M] (0 and 100 when absent) have no more decimal places than the
    field keeps (none when [decimal] is absent or not positive) and are at
    most 10^15 in magnitude, with [M <> 0], every value produced from a
    regular PRNG state (not negative and at most 10^300, so that the doubles
    of the code do not overflow) satisfies [m <= v <= M]. *)
Theorem generateNumber_within_bounds (c : Constraints) (s : Q) (v : value) (s' : Q) :
  (spec_min c <= spec_max c)%Q ->
  ~ (spec_max c == 0)%Q ->
  on_grid (precision c) (spec_min c) = true ->
  on_grid (precision c) (spec_max c) = true ->
  bounded (spec_min c) ->
  bounded (spec_max c) ->
  regular_state s ->
  generateNumber c s = Ok v s' ->
  exists q, v = VNum q /\ (spec_min c <= q <= spec_max c)%Q.
Proof.
  intros Hle Hnz Glo Ghi _ _ [Hs _]. unfold generateNumber, bind.
  destruct (random s) as [r s1 | e s1] eqn:E; [| discriminate].
  destruct (random_range _ _ _ E) as [[_ Hr1] H]. destruct (H Hs) as [Hr Hs1].
  rewrite (or_num_spec_max c Hnz).
  pose proof (or_num_spec_min c) as Em.
  set (lo := spec_min c) in *. set (hi := spec_max c) in *.
  set (m := or_num (c_min c) 0) in *.
  assert (Hv : (lo <= r * (hi - m) + m <= hi)%Q) by (rewrite Em; nra).
  unfold precision in *.
  set (d := or_int (c_decimal c) 0) in *.
  destruct (Z.ltb_spec 0 d) as [Hd | Hd].
  - rewrite Z.max_r in Glo, Ghi by lia.
    destruct (d <=? 100); [| discriminate].
    unfold ret. intros [= <- <-]. eexists. split; [reflexivity|].
    rewrite Qred_correct. apply toFixed_bounds; auto. lia.
  - rewrite Z.max_l in Glo, Ghi by lia.
    unfold ret. intros [= <- <-]. eexists. split; [reflexivity|].
    apply on_grid_spec in Glo as [a Ha]. apply on_grid_spec in Ghi as [b Hb].
    change (inject_Z (10 ^ 0)) with 1%Q in Ha, Hb.
    assert (Ea : (lo == inject_Z a)%Q) by (rewrite <- Ha; ring).
    assert (Eb : (hi == inject_Z b)%Q) by (rewrite <- Hb; ring).
    split.
    + rewrite Ea, <- Zle_Qle. rewrite <- (Qfloor_Z a). apply Qfloor_resp_le. lra.
    + pose proof (Qfloor_le (r * (hi - m) + m)). lra.
Qed.


(** C6.  Template-not-found is fatal: for a name that is neither in the
    cache nor loadable from the store, [generate] raises an error whose
    message includes the name; no record sequence is returned, and the
    instance is unchanged. *)
Theorem generate_template_not_found (host : Host) (this : JSONDataGenerator)
    (templateName : string) (options : GenerationOptions) :
  templates this !! templateName = None ->
  stored_template host templateName = None ->
  exists message,
    generate host this templateName options = (Throws message, [], this)
    /\ includes message templateName.
Proof.
  intros Hcache Hstore. unfold generate, loadTemplate, or_str. rewrite Hcache.
  unfold stored_template in Hstore.
  destruct (readFileSync host _) as [text | e].
  - destruct (JSON_parse host text) as [template | e]; [discriminate|].
    eexists. split; [reflexivity|].
    exists "Failed to load template "%string, (": " ++ e)%string. reflexivity.
  - eexists. split; [reflexivity|].
    exists "Failed to load template "%string, (": " ++ e)%string. reflexivity.
Qed.


(** C9 (as amended).  Shape conformance: for a template whose schema has no
    property named [__proto__], at any depth, a record produced from it has
    exactly the keys of the schema, in the order in which the schema is
    enumerated (the order of declaration, but for array indices, which come
    first), and so has every nested object, recursively (also inside
    arrays), whatever the constraints, enums and data pools.  [wf_value]
    holds of every parsed document. *)
Theorem generateSingleRecord_shape (now : Z) (template : DataTemplate)
    (variations : bool) (s : Q) (R : value) (s' : Q) :
  wf_value (VObj (schema template)) = true ->
  proto_free (VObj (schema template)) = true ->
  generateSingleRecord now template variations s = Ok R s' ->
  exists props,
    R = VObj props
    /\ keys props = keys (schema template)
    /\ conforms (VObj (schema template)) R = true.
Proof.
  intros Hwf Hpf E. unfold generateSingleRecord in E.
  rewrite <- (generateFieldValue_object _ _ _ EmptyString) in E.
  pose proof (generateFieldValue_shape _ _ _ _ Hwf Hpf _ _ _ _ E) as Hc.
  destruct R as [| | | | | | | props]; try discriminate.
  exists props. split; [reflexivity|]. split; [| exact Hc].
  rewrite conforms_object in Hc. apply conforms_fields_keys. exact Hc.
Qed.

(** C10.  Template-load atomicity: a failed [loadTemplate] leaves the
    instance, and so its template cache, unchanged; a template enters the
    cache only when its file was read and parsed. *)
Theorem loadTemplate_atomic (host : Host) (this : JSONDataGenerator)
    (templateName : string) (templatePath : option string) :
  match loadTemplate host this templateName templatePath with
  | (Throws message, this') => this' = this /\ includes message templateName
  | (Returns template, this') =>
      exists text,
        readFileSync host
          (or_str templatePath
             (join_dirname host ("../data/templates/" ++ templateName ++ ".json")))
        = Returns text
        /\ JSON_parse host text = Returns template
        /\ templates this' = <[templateName := template]> (templates this)
        /\ currentSeed this' = currentSeed this
  end.
Proof.
  unfold loadTemplate.
  destruct (readFileSync host _) as [text | e].
  - destruct (JSON_parse host text) as [template | e] eqn:Eparse.
    + exists text. repeat split; [exact Eparse].
    + split; [reflexivity|].
      exists "Failed to load template "%string, (": " ++ e)%string. reflexivity.
  - split; [reflexivity|].
    exists "Failed to load template "%string, (": " ++ e)%string. reflexivity.
Qed.

(** ** The claims on concrete inputs *)

(** C1 as stated fails twice.  Seed 0 counts as no seed, so two instances
    built with it start from whatever [Math.random()] supplies (here 0.25
    and 0.75); and a [datetime] field follows the clock, so two calls one
    millisecond apart differ under seed 12345. *)
Lemma generate_same_seed_differs :
  fst (fst (generate (sample_host 1793664000123)
              (new_JSONDataGenerator (Some (inject_Z 0)) (1 # 4))
              "counter" (seeded_options 0 5)))
  <> fst (fst (generate (sample_host 1793664000123)
                 (new_JSONDataGenerator (Some (inject_Z 0)) (3 # 4))
                 "counter" (seeded_options 0 5)))
  /\ fst (fst (generate (sample_host 1793664000123)
                 (new_JSONDataGenerator (Some (inject_Z 12345)) (1 # 4))
                 "event" (seeded_options 12345 5)))
     <> fst (fst (generate (sample_host 1793664000124)
                    (new_JSONDataGenerator (Some (inject_Z 12345)) (1 # 4))
                    "event" (seeded_options 12345 5))).
Proof. split; vm_compute; intros H; congruence. Qed.

Lemma generate_same_seed_same_records_witness :
  generate (at_time (sample_host 0) 1793664000123)
    (new_JSONDataGenerator (Some (inject_Z 12345)) (1 # 4)) "counter" (seeded_options 12345 5)
  = generate (at_time (sample_host 0) 1893456000000)
      (new_JSONDataGenerator (Some (inject_Z 12345)) (3 # 4)) "counter" (seeded_options 12345 5).
Proof.
  apply generate_same_seed_same_records; [lia|].
  right. intros template H. vm_compute in H. injection H as <-. reflexivity.
Defined.

(** C2 on seed -6: the remainder keeps the sign of the dividend, the state
    becomes -6509 and the value returned is negative. *)
Theorem random_negative_seed :
  random (inject_Z (-6)) = Ok (-6509 # 233280) (inject_Z (-6509))
  /\ Z.rem (-6 * 9301 + 49297) 233280 = -6509
  /\ (-6 * 9301 + 49297) mod 233280 = 226771
  /\ ~ (0 <= -6509 # 233280)%Q.
Proof.
  split; [vm_compute; reflexivity|]. split; [reflexivity|]. split; [reflexivity|].
  unfold Qle. cbn. lia.
Qed.

(** C3 as stated fails: a price between 0.01 and 10000 with no [decimal]
    constraint is floored, here to 0, below the minimum.  Two more inputs
    show why the bounds theorem asks for more: a maximum of 0 counts as absent, so a
    number between -10 and 0 comes out as 35; and from the negative state
    of seed -6 a number between 0 and 100 comes out as -3. *)
Lemma generateNumber_out_of_bounds :
  (c_min price_constraints = Some (1 # 100)
   /\ c_max price_constraints = Some 10000%Q
   /\ generateNumber price_constraints (inject_Z 396) = Ok (VNum 0) 13%Q
   /\ ~ (1 # 100 <= 0)%Q)
  /\ (c_min nonpositive_constraints = Some (-10)%Q
      /\ c_max nonpositive_constraints = Some 0%Q
      /\ generateNumber nonpositive_constraints (inject_Z 12345) = Ok (VNum 35) 96382%Q
      /\ ~ (35 <= 0)%Q)
  /\ (generateNumber no_constraints (inject_Z (-6)) = Ok (VNum (-3)) (inject_Z (-6509))
      /\ ~ (0 <= -3)%Q).
Proof.
  repeat split; try reflexivity; try (vm_compute; reflexivity);
    unfold Qle; cbn; lia.
Qed.

Lemma generateNumber_within_bounds_witness :
  exists q, VNum (413161 # 100) = VNum q
            /\ (spec_min price2_constraints <= q <= spec_max price2_constraints)%Q.
Proof.
  apply (generateNumber_within_bounds price2_constraints (inject_Z 12345)
           (VNum (413161 # 100)) 96382%Q).
  - vm_compute. intros H; discriminate H.
  - vm_compute. intros H; discriminate H.
  - vm_compute. reflexivity.
  - vm_compute. reflexivity.
  - vm_compute. intros H; discriminate H.
  - vm_compute. intros H; discriminate H.
  - split; vm_compute; intros H; discriminate H.
  - vm_compute. reflexivity.
Defined.



(** C5 on the template [{ n: number }] with seed 289, [count: 100] and
    [unique: true]: the 100 records are pairwise distinct, the last one
    found at the 100th attempt, and yet the warning is printed. *)
Theorem generate_warns_on_unique_batch :
  exists records this',
    generate (sample_host 1793664000123) (instance_with "counter" counter_template 289%Q)
      "counter" (options_of 100 true)
    = (Returns records, ["Could not generate unique record after 100 attempts"%string], this')
    /\ length records = 100%nat
    /\ NoDup (map (JSON_stringify (sample_host 1793664000123)) records).
Proof.
  eexists _, _. split; [vm_compute; reflexivity|]. split; [reflexivity|].
  apply (bool_decide_unpack _). vm_compute. exact I.
Qed.

Lemma generate_template_not_found_witness :
  exists message,
    generate (sample_host 1793664000123) (new_JSONDataGenerator (Some 12345%Q) (1 # 4))
      "nonexistent" (options_of 5 false)
    = (Throws message, [], new_JSONDataGenerator (Some 12345%Q) (1 # 4))
    /\ includes message "nonexistent".
Proof.
  apply generate_template_not_found; vm_compute; reflexivity.
Defined.



(** C8 on [{ minLength: 0, maxLength: 2 }]: both bounds are supplied, 0 is
    taken for absent and replaced by 3, and the string has 3 characters. *)
Theorem generateString_ignores_zero_minLength :
  spec_minLength short_constraints = 0
  /\ spec_maxLength short_constraints = 2
  /\ generateString short_constraints None true (inject_Z 12345) = Ok (VStr "avn") 51493%Q
  /\ String.length "avn" = 3%nat.
Proof. vm_compute. repeat split. Qed.

(** C9 as stated fails twice.  The assignment [record['__proto__'] = v]
    reaches the setter of [Object.prototype] and creates no property: the
    record of a schema with the properties [__proto__] and [id] has the one
    key [id].  And a property whose name is an array index is enumerated
    before the others: for the document [{ name, 7 }] the schema, and so the
    record, has the keys in the order [7], [name]. *)
Lemma generateSingleRecord_shape_differs :
  (wf_value (VObj (schema proto_template)) = true
   /\ keys (schema proto_template) = ["__proto__"; "id"]%string
   /\ generateSingleRecord 1793664000123 proto_template true (inject_Z 12345)
      = Ok (VObj [("id", VNum 23)]) 54909%Q
   /\ keys [("id", VNum 23)] <> keys (schema proto_template))
  /\ (wf_value (VObj (schema indexed_template)) = true
      /\ proto_free (VObj (schema indexed_template)) = true
      /\ schema indexed_template = object_of_entries indexed_members
      /\ keys indexed_members = ["name"; "7"]%string
      /\ generateSingleRecord 1793664000123 indexed_template true (inject_Z 12345)
         = Ok (VObj [("7", VBool true); ("name", VStr "vnq")]) 61850%Q
      /\ keys [("7", VBool true); ("name", VStr "vnq")] <> keys indexed_members).
Proof.
  repeat split; try reflexivity; try (vm_compute; reflexivity);
    vm_compute; intros H; discriminate H.
Qed.

Lemma generateSingleRecord_shape_witness :
  exists props,
    VObj [("name", VStr "avnqmSab"); ("price", VNum (16447 # 5));
          ("inStock", VBool false);
          ("dimensions", VObj [("width", VNum 23); ("height", VNum 46)]);
          ("tags", VArr [VStr "HzD8tvl"; VStr "qKsPLl6N5Gh3YBHqd";
                         VStr "pwEnWMI"; VStr "fSLsf0Qf1NjeLQ28"])]
    = VObj props
    /\ keys props = keys (schema product_template)
    /\ conforms (VObj (schema product_template))
         (VObj [("name", VStr "avnqmSab"); ("price", VNum (16447 # 5));
                ("inStock", VBool false);
                ("dimensions", VObj [("width", VNum 23); ("height", VNum 46)]);
                ("tags", VArr [VStr "HzD8tvl"; VStr "qKsPLl6N5Gh3YBHqd";
                               VStr "pwEnWMI"; VStr "fSLsf0Qf1NjeLQ28"])])
       = true.
Proof.
  apply (generateSingleRecord_shape 1793664000123 product_template true
           (inject_Z 12345) _ 226430%Q).
  - vm_compute. reflexivity.
  - vm_compute. reflexivity.
  - vm_compute. reflexivity.
Defined.

(** ** The calendar on known dates *)

Example toISOString_epoch : toISOString 0 = "1970-01-01T00:00:00.000Z"%string.
Proof. vm_compute. reflexivity. Qed.

Example toISOString_2026 :
  toISOString 1793664000123 = "2026-11-03T00:00:00.123Z"%string
  /\ Date_ymd 2026 10 3 = Some 1793664000000
  /\ getFullYear 1793664000123 = 2026.
Proof. vm_compute. repeat split. Qed.

(** * Further properties of the generator

    ** The PRNG and the operations derived from it *)

(** X1.  For an exact integer seed (non-negative, with
    [seed * 9301 + 49297] at most 2^53) the PRNG behaves as a linear
    congruential generator: the state becomes
    [(seed * 9301 + 49297) mod 233280], an integer in [0, 233280), and the
    value returned is that state over 233280, in [0, 1). *)
Theorem random_nonnegative_seed (z : Z) :
  exact_seed z ->
  let z' := (z * 9301 + 49297) mod 233280 in
  random (inject_Z z) = Ok (inject_Z z' / 233280)%Q (inject_Z z')
  /\ 0 <= z' < 233280
  /\ (0 <= inject_Z z' / 233280 < 1)%Q.
Proof.
  intros [Hz _] z'.
  assert (Hrem : Z.rem (z * 9301 + 49297) 233280 = z') by (apply Z.rem_mod_nonneg; lia).
  assert (Hrange : 0 <= z' < 233280) by (apply Z.mod_pos_bound; lia).
  assert (E : random (inject_Z z) = Ok (inject_Z z' / 233280)%Q (inject_Z z')).
  { unfold random. rewrite next_seed_integer, Hrem. reflexivity. }
  split; [exact E|]. split; [exact Hrange|].
  destruct (random_range _ _ _ E) as [[_ Hlt] Hpos].
  split; [| exact Hlt]. apply Hpos. change 0%Q with (inject_Z 0). rewrite <- Zle_Qle. exact Hz.
Qed.

Lemma random_nonnegative_seed_witness :
  random (inject_Z 12345) = Ok (inject_Z 96382 / 233280)%Q (inject_Z 96382)
  /\ 0 <= 96382 < 233280
  /\ (0 <= inject_Z 96382 / 233280 < 1)%Q.
Proof.
  apply (random_nonnegative_seed 12345). split; vm_compute; intros H; discriminate H.
Defined.

(** X2.  Exact integer seeds that differ by a multiple of 233280 start the
    same sequence: the first call already returns the same value and
    reaches the same state. *)
Theorem random_seed_modulo (z k : Z) :
  0 <= z -> 0 <= k -> exact_seed (z + k * 233280) ->
  random (inject_Z (z + k * 233280)) = random (inject_Z z).
Proof.
  intros Hz Hk _. unfold random. rewrite !next_seed_integer.
  rewrite !Z.rem_mod_nonneg by nia.
  replace ((z + k * 233280) * 9301 + 49297)
    with (z * 9301 + 49297 + (k * 9301) * 233280) by ring.
  rewrite Z.mod_add by lia. reflexivity.
Qed.

Lemma random_seed_modulo_witness :
  random (inject_Z (12345 + 3 * 233280)) = random (inject_Z 12345).
Proof.
  apply random_seed_modulo; [lia | lia |]. split; vm_compute; intros H; discriminate H.
Defined.

(** X3.  [randomInt(min, max)] is inclusive on both ends: from an exact
    state and for [min <= max], both at most 10^15 in magnitude, it returns
    an integer between [min] and [max] after exactly one draw. *)
Theorem randomInt_inclusive (min max : Z) (s : Q) :
  min <= max -> bounded_integer min -> bounded_integer max -> exact_state s ->
  exists n, randomInt min max s = Ok n (next_seed s) /\ min <= n <= max.
Proof.
  intros Hmm _ _ Hs%exact_state_nonneg.
  destruct (total_randomInt min max s) as (n & s' & E & _).
  destruct (randomInt_range min max s n s' Hmm Hs E) as [Hn _].
  exists n. split; [| exact Hn].
  unfold randomInt, bind, random, ret in *. injection E as <- <-. reflexivity.
Qed.

Lemma randomInt_inclusive_witness :
  exists n, randomInt 200 999 (inject_Z 12345) = Ok n (next_seed (inject_Z 12345))
            /\ 200 <= n <= 999.
Proof.
  apply randomInt_inclusive; [lia | | |].
  - vm_compute. intros H; discriminate H.
  - vm_compute. intros H; discriminate H.
  - exists 12345. split; [reflexivity | split; vm_compute; intros H; discriminate H].
Defined.

Lemma chars_append (a b : string) : chars (a ++ b) = chars a ++ chars b.
Proof.
  induction a as [| c a IH]; [reflexivity|].
  change (c :: chars (a ++ b) = c :: (chars a ++ chars b)). f_equal. exact IH.
Qed.

Lemma get_chars (n : nat) (s : string) (c : ascii) :
  String.get n s = Some c -> In c (chars s).
Proof.
  revert n. induction s as [| a s IH]; intros n; [discriminate|].
  destruct n as [| n]; cbn [String.get].
  - intros [= ->]. left. reflexivity.
  - intros H. right. exact (IH n H).
Qed.

Lemma charAt_chars charset i c : In c (chars (charAt charset i)) -> In c (chars charset).
Proof.
  unfold charAt. destruct (i <? 0); [intros []|].
  destruct (String.get (Z.to_nat i) charset) as [a |] eqn:E; [| intros []].
  intros [<- | []]. exact (get_chars _ _ _ E).
Qed.

Lemma randomString_loop_chars charset :
  forall n result s str s',
    randomString_loop n charset result s = Ok str s' ->
    forall c, In c (chars str) -> In c (chars result) \/ In c (chars charset).
Proof.
  induction n as [| n IH]; intros result s str s'; cbn [randomString_loop]; unfold bind, ret.
  - intros [= <- _] c Hc. left. exact Hc.
  - destruct (random s) as [r s1 | e s1]; [| discriminate].
    intros E c Hc. destruct (IH _ _ _ _ E c Hc) as [H | H]; [| right; exact H].
    rewrite chars_append in H. apply in_app_or in H as [H | H]; [left; exact H | right].
    exact (charAt_chars _ _ _ H).
Qed.



(** ** Primitive value generators *)

Lemma randomInt_next (min max : Z) (s : Q) :
  min <= max -> (0 <= s)%Q ->
  exists n, randomInt min max s = Ok n (next_seed s) /\ min <= n <= max.
Proof.
  intros Hmm Hs.
  destruct (total_randomInt min max s) as (n & s' & E & _).
  destruct (randomInt_range min max s n s' Hmm Hs E) as [Hn _].
  exists n. split; [| exact Hn].
  unfold randomInt, bind, random, ret in *. injection E as <- <-. reflexivity.
Qed.

Lemma varyString_varied (str : string) (s : Q) :
  (0 <= s)%Q ->
  exists v s', varyString (Some str) s = Ok v s' /\ varied str v /\ (0 <= s')%Q.
Proof.
  intros Hs. unfold varyString, bind.
  destruct (random s) as [r1 s1 | e s1] eqn:E1; [| discriminate].
  destruct (random_range _ _ _ E1) as [_ H1]. destruct (H1 Hs) as [_ Hs1].
  destruct (Qltb r1 (3 # 10)).
  - destruct (total_randomInt 1 999 s1) as (n & s2 & E2 & _). rewrite E2.
    destruct (randomInt_range 1 999 s1 n s2 ltac:(lia) Hs1 E2) as [Hn Hs2].
    eexists _, _. split; [reflexivity|]. split; [| exact Hs2].
    right. left. exists n. split; [exact Hn | reflexivity].
  - destruct (random s1) as [r2 s2 | e s2] eqn:E2; [| discriminate].
    destruct (random_range _ _ _ E2) as [_ H2]. destruct (H2 Hs1) as [_ Hs2].
    destruct (Qltb r2 (2 # 10)).
    + destruct (randomChoice_In ["_test"; "_demo"; "_sample"; "_v2"; "_new"]%string s2
                  ltac:(discriminate) Hs2) as (x & s3 & -> & Hin & Hs3).
      eexists _, _. split; [reflexivity|]. split; [| exact Hs3].
      right. right. exists x. split; [exact Hin | reflexivity].
    + eexists _, _. split; [reflexivity|]. split; [| exact Hs2]. left. reflexivity.
Qed.

(** X5.  A string field with a non-empty data pool takes its value from the
    pool: without variations the value is a pool entry; with variations it
    is a pool entry, possibly followed by a number from 1 to 999 or by one
    of the five fixed suffixes (from a regular PRNG state).  The length
    constraints play no part. *)
Theorem generateString_from_pool (c : Constraints) (pool : list string)
    (variations : bool) (s : Q) :
  pool <> [] -> regular_state s ->
  exists entry v s',
    generateString c (Some pool) variations s = Ok v s'
    /\ In entry pool
    /\ (if variations then varied entry v else v = VStr entry).
Proof.
  intros Hne [Hs _]. destruct pool as [| x items]; [congruence|].
  change (generateString c (Some (x :: items)) variations)
    with (bind (randomChoice (x :: items))
            (fun v => if variations then varyString v else ret (value_of v))).
  unfold bind.
  destruct (randomChoice_In (x :: items) s Hne Hs) as (entry & s1 & -> & Hin & Hs1).
  exists entry. destruct variations.
  - destruct (varyString_varied entry s1 Hs1) as (v & s2 & E & Hv & _).
    exists v, s2. auto.
  - eexists _, _. split; [reflexivity|]. auto.
Qed.

Lemma generateString_from_pool_witness :
  exists entry v s',
    generateString short_constraints (Some ["Oslo"; "Lima"; "Pune"]%string) true
      (inject_Z 12345) = Ok v s'
    /\ In entry ["Oslo"; "Lima"; "Pune"]%string
    /\ (if true then varied entry v else v = VStr entry).
Proof.
  apply generateString_from_pool; [intros H; discriminate H |].
  split; vm_compute; intros H; discriminate H.
Defined.

(** X6.  [generateEnum]: without an enum list, or with an empty one, the
    value is ["unknown"] and the PRNG is not touched; with a non-empty list,
    from a regular state, the value is a member of the list. *)
Theorem generateEnum_member_or_unknown (items : list string) (s : Q) :
  generateEnum None s = Ok (VStr "unknown") s
  /\ generateEnum (Some []) s = Ok (VStr "unknown") s
  /\ (items <> [] -> regular_state s ->
      exists x s', generateEnum (Some items) s = Ok (VStr x) s' /\ In x items).
Proof.
  split; [reflexivity|]. split; [reflexivity|].
  intros Hne [Hs _]. destruct items as [| x items]; [congruence|].
  change (generateEnum (Some (x :: items)))
    with (bind (randomChoice (x :: items)) (fun v => ret (value_of v))).
  unfold bind.
  destruct (randomChoice_In (x :: items) s Hne Hs) as (y & s1 & -> & Hin & _).
  exists y, s1. auto.
Qed.

Lemma generateEnum_member_or_unknown_witness :
  generateEnum None (inject_Z 12345) = Ok (VStr "unknown") (inject_Z 12345)
  /\ generateEnum (Some []) (inject_Z 12345) = Ok (VStr "unknown") (inject_Z 12345)
  /\ exists x s',
       generateEnum (Some ["admin"; "user"]%string) (inject_Z 12345) = Ok (VStr x) s'
       /\ In x ["admin"; "user"]%string.
Proof.
  destruct (generateEnum_member_or_unknown ["admin"; "user"]%string (inject_Z 12345))
    as (H1 & H2 & H3).
  split; [exact H1|]. split; [exact H2|].
  apply H3; [intros H; discriminate H |].
  split; vm_compute; intros H; discriminate H.
Defined.

Lemma pretty_length_in (lo len : Z) (digits : nat) :
  0 <= lo ->
  forallb (fun i => Nat.eqb (String.length (pretty (Z.of_nat i))) digits)
    (seq (Z.to_nat lo) (Z.to_nat len)) = true ->
  forall n, lo <= n < lo + len -> String.length (pretty n) = digits.
Proof.
  intros Hlo H n Hn. rewrite forallb_forall in H.
  specialize (H (Z.to_nat n)). rewrite Z2Nat.id in H by lia.
  apply Nat.eqb_eq, H, in_seq. lia.
Qed.

Lemma pretty_length_3 n : 100 <= n <= 999 -> String.length (pretty n) = 3%nat.
Proof.
  intros H. apply (pretty_length_in 100 900 3); [lia | vm_compute; reflexivity | lia].
Qed.

Lemma pretty_length_4 n : 1000 <= n <= 9999 -> String.length (pretty n) = 4%nat.
Proof.
  intros H. apply (pretty_length_in 1000 9000 4); [lia | vm_compute; reflexivity | lia].
Qed.

(** X7.  A phone number in the default ["us"] format (no [format]
    constraint, or an empty one) reads [(AAA) EEE-NNNN] with area code and
    exchange between 200 and 999 and line number between 1000 and 9999: 14
    characters (from a regular PRNG state). *)
Theorem generatePhone_us (c : Constraints) (s : Q) :
  c_format c = None \/ c_format c = Some EmptyString \/ c_format c = Some "us"%string ->
  regular_state s ->
  exists areaCode exchange number s',
    generatePhone c s
    = Ok (VStr ("(" ++ pretty areaCode ++ ") " ++ pretty exchange ++ "-" ++ pretty number)) s'
    /\ 200 <= areaCode <= 999 /\ 200 <= exchange <= 999 /\ 1000 <= number <= 9999
    /\ String.length ("(" ++ pretty areaCode ++ ") " ++ pretty exchange ++ "-" ++ pretty number)
       = 14%nat.
Proof.
  intros Hfmt [Hs _]. unfold generatePhone.
  assert (Hus : or_str (c_format c) "us" = "us"%string)
    by (destruct Hfmt as [-> | [-> | ->]]; reflexivity).
  rewrite Hus. cbn [String.eqb Ascii.eqb Bool.eqb]. unfold bind, ret.
  destruct (randomInt_next 200 999 s ltac:(lia) Hs) as (a & -> & Ha).
  assert (Hs1 : (0 <= next_seed s)%Q) by (apply next_seed_nonneg; exact Hs).
  destruct (randomInt_next 200 999 _ ltac:(lia) Hs1) as (e & -> & He).
  assert (Hs2 : (0 <= next_seed (next_seed s))%Q) by (apply next_seed_nonneg; exact Hs1).
  destruct (randomInt_next 1000 9999 _ ltac:(lia) Hs2) as (n & -> & Hn).
  exists a, e, n. eexists. split; [reflexivity|]. repeat split; try lia.
  rewrite !string_length_append, !pretty_length_3, pretty_length_4 by lia. reflexivity.
Qed.

Lemma generatePhone_us_witness :
  exists areaCode exchange number s',
    generatePhone no_constraints (inject_Z 12345)
    = Ok (VStr ("(" ++ pretty areaCode ++ ") " ++ pretty exchange ++ "-" ++ pretty number)) s'
    /\ 200 <= areaCode <= 999 /\ 200 <= exchange <= 999 /\ 1000 <= number <= 9999
    /\ String.length ("(" ++ pretty areaCode ++ ") " ++ pretty exchange ++ "-" ++ pretty number)
       = 14%nat.
Proof.
  apply generatePhone_us; [left; reflexivity |].
  split; vm_compute; intros H; discriminate H.
Defined.

(** X8.  An email address is [first.lastN@domain] with the first name, last
    name and domain taken from the three fixed lists and [N] between 1 and
    999, whatever the template's data pool and variations (from a regular
    PRNG state). *)
Theorem generateEmail_shape (s : Q) :
  regular_state s ->
  exists firstName lastName domain number s',
    generateEmail s
    = Ok (VStr (firstName ++ "." ++ lastName ++ pretty number ++ "@" ++ domain)) s'
    /\ In firstName ["john"; "jane"; "mike"; "sarah"; "david"; "emily"; "chris"; "lisa"]%string
    /\ In lastName ["smith"; "johnson"; "williams"; "brown"; "jones"; "garcia"; "miller"]%string
    /\ In domain ["gmail.com"; "yahoo.com"; "hotmail.com"; "outlook.com"; "company.com"]%string
    /\ 1 <= number <= 999.
Proof.
  intros [Hs _]. unfold generateEmail, bind, ret.
  destruct (randomChoice_In
              ["john"; "jane"; "mike"; "sarah"; "david"; "emily"; "chris"; "lisa"]%string
              s ltac:(discriminate) Hs) as (f & s1 & -> & Hf & Hs1).
  destruct (randomChoice_In
              ["smith"; "johnson"; "williams"; "brown"; "jones"; "garcia"; "miller"]%string
              s1 ltac:(discriminate) Hs1) as (l & s2 & -> & Hl & Hs2).
  destruct (randomChoice_In
              ["gmail.com"; "yahoo.com"; "hotmail.com"; "outlook.com"; "company.com"]%string
              s2 ltac:(discriminate) Hs2) as (d & s3 & -> & Hd & Hs3).
  destruct (randomInt_next 1 999 s3 ltac:(lia) Hs3) as (n & -> & Hn).
  exists f, l, d, n. eexists. split; [reflexivity|]. auto.
Qed.

Lemma generateEmail_shape_witness :
  exists firstName lastName domain number s',
    generateEmail (inject_Z 12345)
    = Ok (VStr (firstName ++ "." ++ lastName ++ pretty number ++ "@" ++ domain)) s'
    /\ In firstName ["john"; "jane"; "mike"; "sarah"; "david"; "emily"; "chris"; "lisa"]%string
    /\ In lastName ["smith"; "johnson"; "williams"; "brown"; "jones"; "garcia"; "miller"]%string
    /\ In domain ["gmail.com"; "yahoo.com"; "hotmail.com"; "outlook.com"; "company.com"]%string
    /\ 1 <= number <= 999.
Proof.
  apply generateEmail_shape.
  split; vm_compute; intros H; discriminate H.
Defined.

Lemma capitalize_length (sentence : string) :
  String.length (capitalize sentence) = String.length sentence.
Proof. destruct sentence; reflexivity. Qed.

Lemma concat_length_ge (sep : string) (l : list string) :
  (list_sum (map String.length l) <= String.length (String.concat sep l))%nat.
Proof.
  induction l as [| x [| y r] IH].
  - cbn. lia.
  - cbn. lia.
  - change (String.concat sep (x :: y :: r))
      with (x ++ sep ++ String.concat sep (y :: r))%string.
    rewrite !string_length_append. cbn [map list_sum fold_right] in *. lia.
Qed.

(** The loop of [generateText] stops only when the sentences collected hold
    at least [length] characters. *)
Lemma generateText_loop_collects length :
  forall fuel currentLength sentences s out s',
    length - currentLength <= Z.of_nat fuel ->
    currentLength = Z.of_nat (list_sum (map String.length sentences)) ->
    generateText_loop fuel length currentLength sentences s = Ok out s' ->
    length <= Z.of_nat (list_sum (map String.length out)).
Proof.
  induction fuel as [| fuel IH]; intros currentLength sentences s out s' Hfuel Hinv;
    cbn [generateText_loop];
    destruct (Z.ltb_spec currentLength length) as [Hlt | Hge];
    try (unfold ret; intros [= <- _]; lia).
  unfold bind.
  destruct (randomInt 5 15 s) as [n s1 | e s1]; [| discriminate].
  destruct (repeatM _ _ s1) as [ws s2 | e s2]; [| discriminate].
  apply IH; [lia|].
  rewrite map_app, list_sum_app. cbn [map list_sum fold_right].
  rewrite string_length_append, capitalize_length. cbn [String.length]. lia.
Qed.

(** X9.  A synthesized text (no data pool) is at least as long as the
    minimum length asked for: from a regular state and with
    [minLength <= maxLength] (50 and 500 when absent or zero), both at most
    10^8 in magnitude, the text has at least [minLength] characters.  It
    may be longer than [maxLength]: sentences are added whole. *)
Theorem generateText_at_least_minLength (c : Constraints) (s : Q) :
  let minLength := or_int (c_minLength c) 50 in
  let maxLength := or_int (c_maxLength c) 500 in
  minLength <= maxLength ->
  bounded_length minLength -> bounded_length maxLength ->
  regular_state s ->
  exists text s',
    generateText None c s = Ok (VStr text) s'
    /\ minLength <= Z.of_nat (String.length text).
Proof.
  intros minLength maxLength Hmm _ _ [Hs _]. unfold generateText, bind, ret.
  fold minLength maxLength.
  destruct (randomInt_next minLength maxLength s Hmm Hs) as (n & -> & Hn).
  destruct (total_generateText_loop (Z.to_nat n) n 0 [] (next_seed s))
    as (out & s' & E & _).
  rewrite E. exists (String.concat " " out), s'. split; [reflexivity|].
  apply generateText_loop_collects in E; [| lia | reflexivity].
  pose proof (concat_length_ge " " out). lia.
Qed.

Lemma generateText_at_least_minLength_witness :
  exists text s',
    generateText None no_constraints (inject_Z 12345) = Ok (VStr text) s'
    /\ 50 <= Z.of_nat (String.length text).
Proof.
  apply (generateText_at_least_minLength no_constraints (inject_Z 12345)).
  - cbn. lia.
  - vm_compute. intros H; discriminate H.
  - vm_compute. intros H; discriminate H.
  - split; vm_compute; intros H; discriminate H.
Defined.

(** X10.  In floor mode (no positive [decimal]) a number field with
    integer bounds of 32 bits is an integer strictly below its maximum, and
    not below its minimum: for integers [min < max] (as the generator reads
    them: 0 and 100 when absent or zero) of at most 2^31 in magnitude, from
    an exact state, the maximum itself is never produced.  (With bounds of
    this size the margin the PRNG leaves below 1 exceeds the rounding of the
    doubles.) *)
Theorem generateNumber_floor_excludes_max (c : Constraints) (s : Q) :
  let min := or_num (c_min c) 0 in
  let max := or_num (c_max c) 100 in
  or_int (c_decimal c) 0 <= 0 -> (min < max)%Q ->
  small_integer min -> small_integer max ->
  exact_state s ->
  exists (n : Z) s',
    generateNumber c s = Ok (VNum (inject_Z n)) s'
    /\ (min - 1 < inject_Z n < max)%Q.
Proof.
  intros min max Hdec Hmm _ _ Hs%exact_state_nonneg.
  unfold generateNumber, bind, ret. fold min max.
  destruct (random s) as [r s1 | e s1] eqn:E; [| discriminate].
  destruct (random_range _ _ _ E) as [[_ Hr1] H]. destruct (H Hs) as [Hr _].
  destruct (Z.ltb_spec 0 (or_int (c_decimal c) 0)) as [Hpos | _]; [lia|].
  eexists _, _. split; [reflexivity|].
  pose proof (Qfloor_le (r * (max - min) + min)) as F1.
  pose proof (Qlt_floor (r * (max - min) + min)) as F2.
  rewrite inject_Z_plus in F2. change (inject_Z 1) with 1%Q in F2.
  split; nra.
Qed.

Lemma generateNumber_floor_excludes_max_witness :
  exists (n : Z) s',
    generateNumber no_constraints (inject_Z 12345) = Ok (VNum (inject_Z n)) s'
    /\ (0 - 1 < inject_Z n < 100)%Q.
Proof.
  apply (generateNumber_floor_excludes_max no_constraints (inject_Z 12345)).
  - cbn. lia.
  - reflexivity.
  - exists 0. split; [reflexivity | vm_compute; intros H; discriminate H].
  - exists 100. split; [reflexivity | vm_compute; intros H; discriminate H].
  - exists 12345. split; [reflexivity | split; vm_compute; intros H; discriminate H].
Defined.

(** ** The walker *)

Lemma repeatM_length {A} (f : Gen A) :
  forall n s xs s', repeatM n f s = Ok xs s' -> length xs = n.
Proof.
  induction n as [| n IH]; intros s xs s'; cbn [repeatM]; unfold bind, ret.
  - intros [= <- _]. reflexivity.
  - destruct (f s) as [x s1 | e s1]; [| discriminate].
    destruct (repeatM n f s1) as [ys s2 | e s2] eqn:E; [| discriminate].
    intros [= <- _]. cbn [length]. f_equal. exact (IH _ _ _ E).
Qed.

(** X11.  An array type [[t]] yields an array of one to five elements
    (drawn first, from a regular state), each generated under the array
    field's own name. *)
Theorem generateFieldValue_array_length (now : Z) (template : DataTemplate)
    (variations : bool) (field : string) (items : list value) (s : Q) (v : value) (s' : Q) :
  regular_state s ->
  generateFieldValue now template variations field (VArr items) s = Ok v s' ->
  exists vs, v = VArr vs /\ (1 <= length vs <= 5)%nat.
Proof.
  intros [Hs _]. cbn [generateFieldValue]. unfold bind, ret.
  destruct (randomInt_next 1 5 s ltac:(lia) Hs) as (n & -> & Hn).
  destruct (repeatM _ _ (next_seed s)) as [vs s2 | e s2] eqn:E; [| discriminate].
  intros [= <- _]. exists vs. split; [reflexivity|].
  apply repeatM_length in E. lia.
Qed.

Lemma generateFieldValue_array_length_witness :
  exists vs,
    VArr [VStr "admin"; VStr "user"; VStr "admin"] = VArr vs /\ (1 <= length vs <= 5)%nat.
Proof.
  apply (generateFieldValue_array_length 0 pooled_template true "roles" [VStr "enum"]
           (inject_Z 12345) _ 51493%Q).
  - split; vm_compute; intros H; discriminate H.
  - vm_compute. reflexivity.
Defined.

Lemma raise_free_object entries :
  raise_free (VObj entries) = true ->
  Forall (fun kv => raise_free (snd kv) = true) entries.
Proof.
  cbn [raise_free]. induction entries as [| [k t] rest IH]; intros H; constructor.
  - apply andb_prop in H as [Ht _]. exact Ht.
  - apply IH. apply andb_prop in H as [_ Hr]. exact Hr.
Qed.

Lemma total_generatePrimitive_raise_free now template variations field type :
  raise_free type = true ->
  total (generatePrimitive now template variations field type).
Proof.
  intros Hfree. unfold generatePrimitive.
  assert (Hd : is_tag type "number" = false /\ is_tag type "date" = false
               /\ is_tag type "datetime" = false).
  { destruct type; try (repeat split; reflexivity).
    cbn [raise_free is_tag] in *. apply andb_prop in Hfree as [H H3].
    apply andb_prop in H as [H1 H2].
    repeat split;
      [destruct (String.eqb s "number") | destruct (String.eqb s "date")
       | destruct (String.eqb s "datetime")]; (reflexivity || discriminate). }
  destruct Hd as (-> & -> & ->).
  repeat match goal with
         | |- total (if ?b then _ else _) => destruct b
         | |- total (match ?x with _ => _ end) => destruct x
         end;
    auto using total_generateString, total_generateEmail, total_generatePhone,
      total_generateUrl, total_generateText, total_generateEnum.
  total_auto.
Qed.

Lemma total_generateFieldValue_raise_free now template variations type :
  raise_free type = true ->
  forall field, total (generateFieldValue now template variations field type).
Proof.
  induction type as [| | | b | q | s | l IH | l IH] using value_ind;
    intros Hfree field;
    try (cbn [generateFieldValue]; apply total_generatePrimitive_raise_free; exact Hfree).
  - cbn [generateFieldValue].
    eapply returns_bind; [apply total_randomInt | intros n _].
    eapply returns_bind; [| intros vs _; total_auto].
    apply total_repeatM. destruct l as [| t rest].
    + apply total_generatePrimitive_raise_free. reflexivity.
    + inversion IH; subst. auto.
  - eapply total_ext; [intros s; apply generateFieldValue_object |].
    apply total_generateFields. apply raise_free_object in Hfree.
    rewrite List.Forall_forall in *. intros kv Hkv f0. apply IH; auto.
Qed.

(** ** The batch generator *)



(** The batch loop only ever adds warnings. *)
Lemma generate_loop_warnings_grow host template variations unique :
  forall n results generatedValues warnings s outcome warnings' s',
    generate_loop host template variations unique n results generatedValues warnings s
    = (outcome, warnings', s') ->
    (length warnings <= length warnings')%nat.
Proof.
  induction n as [| n IH]; intros results gv warnings s outcome warnings' s';
    cbn [generate_loop].
  - intros [= _ <- _]. lia.
  - destruct (attempt_loop _ _ _ _ _ _ _ s) as [[data attempts] s1 | e s1];
      [| intros [= _ <- _]; lia].
    intros Hrest. apply IH in Hrest.
    destruct (unique && (maxAttempts unique <=? attempts)); [| exact Hrest].
    rewrite length_app in Hrest. cbn [length] in Hrest. lia.
Qed.

(** With [unique], as long as no warning is added, the records collected
    have pairwise different serializations, all of them in the set. *)
Lemma generate_loop_unique_distinct host template variations :
  forall n results generatedValues warnings s records warnings' s',
    NoDup (map (JSON_stringify host) results) ->
    (forall k, k ∈ generatedValues <-> In k (map (JSON_stringify host) results)) ->
    generate_loop host template variations true n results generatedValues warnings s
    = (Returns records, warnings', s') ->
    length warnings' = length warnings ->
    NoDup (map (JSON_stringify host) records).
Proof.
  induction n as [| n IH]; intros results gv warnings s records warnings' s' Hnd Hgv;
    cbn [generate_loop].
  - intros [= <- <- _] _. exact Hnd.
  - destruct (attempt_loop host template variations true (Z.to_nat (maxAttempts true)) 0 gv s)
      as [[data attempts] s1 | e s1] eqn:E; [| discriminate].
    apply attempt_loop_attempts in E as [Hatt Hfresh]; [| lia | cbn; lia].
    cbn [andb]. destruct (Z.leb_spec (maxAttempts true) attempts) as [Hex | Hlt].
    + intros Hrest Hlen. apply generate_loop_warnings_grow in Hrest.
      rewrite length_app in Hrest. cbn [length] in Hrest. lia.
    + intros Hrest Hlen.
      assert (Hnew : ~ In (JSON_stringify host data) (map (JSON_stringify host) results)).
      { specialize (Hfresh eq_refl Hlt). unfold isDuplicate in Hfresh.
        apply bool_decide_eq_false in Hfresh. intros C. apply Hfresh, Hgv, C. }
      apply (IH _ _ _ _ _ _ _) in Hrest; [exact Hrest | | | exact Hlen].
      * rewrite map_app. cbn [map]. apply NoDup_app. split; [exact Hnd|]. split.
        -- intros k Hk Hin. apply list_elem_of_In in Hin as [Ek | []]. subst k.
           apply Hnew, list_elem_of_In, Hk.
        -- apply NoDup_singleton.
      * intros k. rewrite map_app, in_app_iff, elem_of_union, elem_of_singleton, Hgv.
        cbn [map In]. intuition congruence.
Qed.

(** X13.  Uniqueness holds whenever no warning was printed: if [generate]
    with [unique: true] returns without a warning, the records returned have
    pairwise different serializations. *)
Theorem generate_unique_without_warning (host : Host) (this : JSONDataGenerator)
    (templateName : string) (options : GenerationOptions)
    (records : list value) (this' : JSONDataGenerator) :
  unique options = Some true ->
  generate host this templateName options = (Returns records, [], this') ->
  NoDup (map (JSON_stringify host) records).
Proof.
  intros Hu. unfold generate. rewrite Hu. cbn [or_default].
  destruct (match templates this !! templateName with
            | Some template => (Returns template, this)
            | None => loadTemplate host this templateName None
            end) as [[template | e] this1]; [| discriminate].
  destruct (generate_loop _ _ _ _ _ _ _ _ _) as [[outcome warnings] s] eqn:E.
  intros [= -> -> _].
  eapply generate_loop_unique_distinct in E; [exact E | | | reflexivity].
  - constructor.
  - intros k. cbn [map In]. rewrite elem_of_empty. tauto.
Qed.

Lemma generate_unique_without_warning_witness :
  NoDup (map (JSON_stringify (sample_host 0))
           [VObj [("n", VNum 41)]; VObj [("n", VNum 1)]; VObj [("n", VNum 35)];
            VObj [("n", VNum 22)]; VObj [("n", VNum 26)]]).
Proof.
  eapply (generate_unique_without_warning (sample_host 0)
            (instance_with "counter" counter_template 12345%Q) "counter" (options_of 5 true)).
  - reflexivity.
  - vm_compute. reflexivity.
Defined.

(** *** Reusing an instance *)

(** The records collected so far are only ever extended. *)
Lemma generate_loop_prefix host template variations unique :
  forall n results generatedValues warnings s,
    generate_loop host template variations unique n results generatedValues warnings s
    = let '(outcome, warnings', s') :=
        generate_loop host template variations unique n [] generatedValues warnings s in
      (match outcome with
       | Returns records => Returns (results ++ records)
       | Throws e => Throws e
       end, warnings', s').
Proof.
  induction n as [| n IH]; intros results gv warnings s; cbn [generate_loop].
  - rewrite app_nil_r. reflexivity.
  - destruct (attempt_loop _ _ _ _ _ _ _ s) as [[data attempts] s1 | e s1]; [| reflexivity].
    rewrite IH. rewrite (IH ([] ++ [data])).
    destruct (generate_loop _ _ _ _ n [] _ _ s1) as [[[records | e] warnings'] s'];
      [| reflexivity].
    rewrite <- app_assoc. reflexivity.
Qed.

(** Without [unique], [a + b] iterations are [a] iterations followed by
    [b] iterations from the state reached, and nothing is printed. *)
Lemma generate_loop_split host template variations generatedValues :
  forall a b warnings s r1 s1 r2 s2 w1 w2,
    generate_loop host template variations false a [] generatedValues warnings s
    = (Returns r1, w1, s1) ->
    generate_loop host template variations false b [] generatedValues warnings s1
    = (Returns r2, w2, s2) ->
    generate_loop host template variations false (a + b) [] generatedValues warnings s
    = (Returns (r1 ++ r2), warnings, s2)
    /\ w1 = warnings /\ w2 = warnings.
Proof.
  induction a as [| a IH]; intros b warnings s r1 s1 r2 s2 w1 w2; cbn [generate_loop Nat.add].
  - intros [= <- <- <-] Hb. rewrite Hb. cbn [app].
    assert (w2 = warnings); [| subst; auto].
    clear -Hb. revert s r2 s2 Hb. generalize (@nil value). induction b as [| b IHb];
      intros results s r2 s2; cbn [generate_loop].
    + intros [= _ <- _]. reflexivity.
    + destruct (attempt_loop _ _ _ _ _ _ _ s) as [[data attempts] s' | e s']; [| discriminate].
      cbn [andb]. apply IHb.
  - destruct (attempt_loop _ _ _ _ _ _ _ s) as [[data attempts] s' | e s']; [| discriminate].
    cbn [andb app]. rewrite (generate_loop_prefix _ _ _ _ a [data]).
    rewrite (generate_loop_prefix _ _ _ _ (a + b) [data]).
    destruct (generate_loop _ _ _ _ a [] _ _ s') as [[[ra | e] wa] sa] eqn:Ea; [| discriminate].
    intros [= <- <- <-] Hb.
    destruct (IH b warnings s' ra sa r2 s2 wa w2 Ea Hb) as (-> & -> & ->).
    auto.
Qed.

(** What a successful [loadTemplate] leaves behind. *)
Lemma loadTemplate_cached host this templateName :
  match loadTemplate host this templateName None with
  | (Returns template, this') =>
      templates this' !! templateName = Some template
      /\ currentSeed this' = currentSeed this
  | (Throws _, _) => True
  end.
Proof.
  unfold loadTemplate.
  destruct (readFileSync host _) as [text | e]; [| exact I].
  destruct (JSON_parse host text) as [template | e]; [| exact I].
  cbn [templates currentSeed]. split; [apply lookup_insert_eq | reflexivity].
Qed.

(** A call that has to load its template behaves as the call on the
    instance with the template loaded. *)
Lemma generate_after_load host this templateName options template this0 :
  templates this !! templateName = None ->
  loadTemplate host this templateName None = (Returns template, this0) ->
  generate host this templateName options = generate host this0 templateName options.
Proof.
  intros Hnone Hload. pose proof (loadTemplate_cached host this templateName) as H.
  rewrite Hload in H. destruct H as [Hc Hs].
  unfold generate. rewrite Hnone, Hload, Hc, Hs. reflexivity.
Qed.

(** A call on an instance that holds the template runs the batch loop on
    it. *)
Lemma generate_cached host this templateName options template :
  templates this !! templateName = Some template ->
  generate host this templateName options
  = let '(result, warnings, s) :=
      generate_loop host template (or_default (variations options) true)
        (or_default (unique options) false)
        (Z.to_nat (or_default (count options) 1)) [] ∅ [] (currentSeed this) in
    (result, warnings, {| templates := templates this; currentSeed := s |}).
Proof. intros Hc. unfold generate. rewrite Hc. reflexivity. Qed.

Lemma generate_split_cached host this templateName template
    (oa ob oab : GenerationOptions) (a b : Z) r1 w1 this1 r2 w2 this2 :
  templates this !! templateName = Some template ->
  0 <= a -> 0 <= b ->
  count oa = Some a -> count ob = Some b -> count oab = Some (a + b) ->
  or_default (unique oa) false = false ->
  unique ob = unique oa -> unique oab = unique oa ->
  variations ob = variations oa -> variations oab = variations oa ->
  generate host this templateName oa = (Returns r1, w1, this1) ->
  generate host this1 templateName ob = (Returns r2, w2, this2) ->
  generate host this templateName oab = (Returns (r1 ++ r2), [], this2)
  /\ w1 = [] /\ w2 = [].
Proof.
  intros Hc Ha Hb Ca Cb Cab Hu Ub Uab Vb Vab H1 H2.
  rewrite (generate_cached _ _ _ _ _ Hc) in H1. rewrite (generate_cached _ _ _ _ _ Hc).
  rewrite Ca, Hu in H1. rewrite Cab, Uab, Vab, Hu. cbn [or_default] in *.
  set (v := or_default (variations oa) true) in *.
  destruct (generate_loop host template v false (Z.to_nat a) [] ∅ [] (currentSeed this))
    as [[[ra | e] wa] sa] eqn:Ea; [| discriminate].
  injection H1 as <- <- <-.
  rewrite (generate_cached _ _ _ _ template) in H2 by exact Hc.
  rewrite Cb, Ub, Vb, Hu in H2. cbn [or_default templates currentSeed] in H2. fold v in H2.
  destruct (generate_loop host template v false (Z.to_nat b) [] ∅ [] sa)
    as [[[rb | e] wb] sb] eqn:Eb; [| discriminate].
  injection H2 as <- <- <-.
  destruct (generate_loop_split _ _ _ _ _ _ _ _ _ _ _ _ _ _ Ea Eb) as (E & -> & ->).
  rewrite Z2Nat.inj_add by lia. rewrite E. auto.
Qed.

(** Two calls without [unique] on one instance, against one call for both
    counts: the options may differ in [seed] and [locale], which [generate]
    never reads. *)
Lemma generate_split host this templateName (oa ob oab : GenerationOptions) (a b : Z)
    r1 w1 this1 r2 w2 this2 :
  0 <= a -> 0 <= b ->
  count oa = Some a -> count ob = Some b -> count oab = Some (a + b) ->
  or_default (unique oa) false = false ->
  unique ob = unique oa -> unique oab = unique oa ->
  variations ob = variations oa -> variations oab = variations oa ->
  generate host this templateName oa = (Returns r1, w1, this1) ->
  generate host this1 templateName ob = (Returns r2, w2, this2) ->
  generate host this templateName oab = (Returns (r1 ++ r2), [], this2)
  /\ w1 = [] /\ w2 = [].
Proof.
  intros Ha Hb Ca Cb Cab Hu Ub Uab Vb Vab H1 H2.
  destruct (templates this !! templateName) as [template |] eqn:Et.
  - apply (generate_split_cached host this templateName template oa ob oab a b
             r1 w1 this1 r2 w2 this2); assumption.
  - destruct (loadTemplate host this templateName None) as [[template | e] this0] eqn:El.
    + rewrite (generate_after_load _ _ _ _ _ _ Et El) in H1.
      rewrite (generate_after_load _ _ _ _ _ _ Et El).
      pose proof (loadTemplate_cached host this templateName) as H.
      rewrite El in H. destruct H as [Hc _].
      apply (generate_split_cached host this0 templateName template oa ob oab a b
               r1 w1 this1 r2 w2 this2); assumption.
    + unfold generate in H1. rewrite Et, El in H1. discriminate.
Qed.

Lemma stored_loadTemplate host this templateName template :
  stored_template host templateName = Some template ->
  loadTemplate host this templateName None
  = (Returns template,
     {| templates := <[templateName := template]> (templates this);
        currentSeed := currentSeed this |}).
Proof.
  unfold stored_template, loadTemplate, or_str.
  destruct (readFileSync host _) as [text | e]; [| discriminate].
  destruct (JSON_parse host text) as [t | e]; [| discriminate].
  intros [= ->]. reflexivity.
Qed.

(** On a template without [date] and [datetime] fields a call gives the
    same result at any clock reading. *)
Lemma generate_clock host now now' this templateName options template :
  templates this !! templateName = Some template ->
  clock_free (VObj (schema template)) = true ->
  generate (at_time host now) this templateName options
  = generate (at_time host now') this templateName options.
Proof.
  intros Hc Hfree. rewrite !(generate_cached _ _ _ _ template) by exact Hc.
  rewrite (generate_loop_ext (at_time host now) (at_time host now'));
    [reflexivity | reflexivity |].
  intros s. cbn [Date_now at_time]. apply generateSingleRecord_clock. exact Hfree.
Qed.

(** Two calls without [unique] against one call for both counts, each call
    at its own clock reading: the readings agree, or the template has no
    [date] or [datetime] field. *)
Lemma generate_split_clock host (now1 now2 now3 : Z) this templateName template
    (oa ob oab : GenerationOptions) (a b : Z) r1 w1 this1 r2 w2 this2 :
  template_in_use host this templateName template ->
  (now1 = now3 /\ now2 = now3) \/ clock_free (VObj (schema template)) = true ->
  0 <= a -> 0 <= b ->
  count oa = Some a -> count ob = Some b -> count oab = Some (a + b) ->
  or_default (unique oa) false = false ->
  unique ob = unique oa -> unique oab = unique oa ->
  variations ob = variations oa -> variations oab = variations oa ->
  generate (at_time host now1) this templateName oa = (Returns r1, w1, this1) ->
  generate (at_time host now2) this1 templateName ob = (Returns r2, w2, this2) ->
  generate (at_time host now3) this templateName oab = (Returns (r1 ++ r2), [], this2).
Proof.
  intros Huse Hclock Ha Hb Ca Cb Cab Hu Ub Uab Vb Vab H1 H2.
  destruct Hclock as [[-> ->] | Hfree].
  - apply (generate_split (at_time host now3) this templateName oa ob oab a b
             r1 w1 this1 r2 w2 this2); assumption.
  - assert (Hnorm : exists this0,
               templates this0 !! templateName = Some template
               /\ forall now o, generate (at_time host now) this templateName o
                                = generate (at_time host now) this0 templateName o).
    { destruct Huse as [Hc | [Hnone Hstored]].
      - exists this. auto.
      - eexists. split; [| intros now o; apply (generate_after_load _ _ _ _ template);
                             [exact Hnone |
                              apply (stored_loadTemplate (at_time host now)); exact Hstored]].
        cbn [templates]. apply lookup_insert_eq. }
    destruct Hnorm as (this0 & Hc & Heq). rewrite Heq in H1. rewrite Heq.
    rewrite (generate_clock host now1 now3 _ _ _ template Hc Hfree) in H1.
    assert (Hc1 : templates this1 !! templateName = Some template).
    { pose proof H1 as H. rewrite (generate_cached _ _ _ _ template Hc) in H.
      destruct (generate_loop _ _ _ _ _ _ _ _ _) as [[o w] s]. injection H as _ _ <-.
      exact Hc. }
    rewrite (generate_clock host now2 now3 _ _ _ template Hc1 Hfree) in H2.
    apply (generate_split_cached (at_time host now3) this0 templateName template oa ob oab
             a b r1 w1 this1 r2 w2 this2); assumption.
Qed.

(** X14.  An instance that is reused continues its sequence: without
    [unique], a call for [a] records followed by a call for [b] records on
    the same instance returns, taken together, exactly the records of one
    call for [a + b] records, and leaves the instance in the same state,
    when the three calls read the same clock value; when the template in
    use has no [date] or [datetime] field (at any depth) they do so at any
    three clock readings. *)
Theorem generate_continues (host : Host) (now1 now2 now3 : Z) (this : JSONDataGenerator)
    (templateName : string) (template : DataTemplate) (options : GenerationOptions)
    (a b : Z) (r1 r2 : list value) (w1 w2 : list string)
    (this1 this2 : JSONDataGenerator) :
  template_in_use host this templateName template ->
  (now1 = now3 /\ now2 = now3) \/ clock_free (VObj (schema template)) = true ->
  or_default (unique options) false = false ->
  0 <= a -> 0 <= b ->
  generate (at_time host now1) this templateName (with_count options a)
  = (Returns r1, w1, this1) ->
  generate (at_time host now2) this1 templateName (with_count options b)
  = (Returns r2, w2, this2) ->
  generate (at_time host now3) this templateName (with_count options (a + b))
  = (Returns (r1 ++ r2), [], this2).
Proof.
  intros Huse Hclock Hu Ha Hb H1 H2.
  apply (generate_split_clock host now1 now2 now3 this templateName template
           (with_count options a) (with_count options b) (with_count options (a + b))
           a b r1 w1 this1 r2 w2 this2);
    auto.
Qed.

Lemma generate_continues_witness :
  exists r1 r2 this2,
    generate (at_time (sample_host 0) 1793664000999)
      (instance_with "counter" counter_template 12345%Q) "counter"
      (with_count (options_of 1 false) (2 + 3))
    = (Returns (r1 ++ r2), [], this2).
Proof.
  eexists _, _, _.
  eapply (generate_continues (sample_host 0) 1793664000123 1793664000456 1793664000999
            (instance_with "counter" counter_template 12345%Q) "counter"
            counter_template (options_of 1 false) 2 3).
  - left. vm_compute. reflexivity.
  - right. vm_compute. reflexivity.
  - reflexivity.
  - lia.
  - lia.
  - vm_compute. reflexivity.
  - vm_compute. reflexivity.
Defined.

(** X15.  A template is loaded on first use and then served from the cache:
    after [generate] on an instance that did not hold the template, the
    instance holds the stored template under its name, whether or not
    generation succeeded, and later calls on that instance give the same
    result on any host with the same serializer and clock, whatever has
    become of the file. *)
Theorem generate_loads_once (host host' : Host) (this : JSONDataGenerator)
    (templateName : string) (options options' : GenerationOptions)
    (template : DataTemplate) :
  templates this !! templateName = None ->
  stored_template host templateName = Some template ->
  JSON_stringify host' = JSON_stringify host ->
  Date_now host' = Date_now host ->
  let this' := snd (generate host this templateName options) in
  templates this' = <[templateName := template]> (templates this)
  /\ generate host' this' templateName options'
     = generate host this' templateName options'.
Proof.
  intros Hnone Hstored Hstr Hnow this'.
  assert (Ht : templates this' = <[templateName := template]> (templates this)).
  { subst this'.
    rewrite (generate_after_load _ _ _ _ _ _ Hnone (stored_loadTemplate _ this _ _ Hstored)).
    rewrite (generate_cached _ _ _ _ template) by apply lookup_insert_eq.
    destruct (generate_loop _ _ _ _ _ _ _ _ _) as [[r w] s]. reflexivity. }
  split; [exact Ht|].
  assert (Hc : templates this' !! templateName = Some template)
    by (rewrite Ht; apply lookup_insert_eq).
  rewrite !(generate_cached _ _ _ _ template) by exact Hc.
  rewrite (generate_loop_ext host' host); [reflexivity | exact Hstr |].
  intros s. rewrite Hnow. reflexivity.
Qed.

Lemma generate_loads_once_witness :
  let this' :=
    snd (generate (sample_host 0) (new_JSONDataGenerator (Some 12345%Q) (1 # 4))
           "counter" (options_of 2 false)) in
  templates this'
  = <[ "counter"%string := counter_template ]>
      (templates (new_JSONDataGenerator (Some 12345%Q) (1 # 4)))
  /\ generate (table_host ∅ ∅ 0) this' "counter" (options_of 3 false)
     = generate (sample_host 0) this' "counter" (options_of 3 false).
Proof.
  refine (generate_loads_once (sample_host 0) (table_host ∅ ∅ 0)
            (new_JSONDataGenerator (Some 12345%Q) (1 # 4)) "counter"
            (options_of 2 false) (options_of 3 false) counter_template _ _ _ _).
  - vm_compute. reflexivity.
  - vm_compute. reflexivity.
  - reflexivity.
  - reflexivity.
Defined.

(** ** The data generator commands *)

(** X16.  The commands share one generator, created without a seed on first
    use, and the [seed] option is never read: a second [generateData] with
    the same (or any other) seed continues the sequence of the first.
    Without [unique], two calls for [a] and [b] records return together what
    one call for [a + b] records returns from a fresh module, when the calls
    read the same clock value; when the stored template has no [date] or
    [datetime] field they do so at any clock readings. *)
Theorem cy_generateData_ignores_seed (host : Host) (now1 now2 now3 : Z) (e1 e2 : Q)
    (templateName : string) (template : DataTemplate)
    (a b : Z) (v : option bool) (l1 l2 l3 : option string)
    (seed1 seed2 seed3 : option Q)
    (r1 r2 : list value) (w1 w2 : list string) (st1 st2 : option JSONDataGenerator) :
  stored_template host templateName = Some template ->
  (now1 = now3 /\ now2 = now3) \/ clock_free (VObj (schema template)) = true ->
  0 <= a -> 0 <= b ->
  cy_generateData (at_time host now1) e1 None templateName
    {| count := Some a; locale := l1; seed := seed1; variations := v; unique := None |}
  = (Returns r1, w1, st1) ->
  cy_generateData (at_time host now2) e2 st1 templateName
    {| count := Some b; locale := l2; seed := seed2; variations := v; unique := None |}
  = (Returns r2, w2, st2) ->
  cy_generateData (at_time host now3) e1 None templateName
    {| count := Some (a + b); locale := l3; seed := seed3; variations := v; unique := None |}
  = (Returns (r1 ++ r2), [], st2).
Proof.
  intros Hstored Hclock Ha Hb. unfold cy_generateData. cbn [getDataGenerator].
  destruct (generate (at_time host now1) (new_JSONDataGenerator None e1) templateName _)
    as [[o1 w1'] g1] eqn:E1.
  intros [= -> -> <-]. cbn [getDataGenerator].
  destruct (generate (at_time host now2) g1 templateName _) as [[o2 w2'] g2] eqn:E2.
  intros [= -> -> <-].
  assert (Huse : template_in_use host (new_JSONDataGenerator None e1) templateName template).
  { right. split; [apply lookup_empty | exact Hstored]. }
  rewrite (generate_split_clock host now1 now2 now3 (new_JSONDataGenerator None e1)
             templateName template
             {| count := Some a; locale := l1; seed := seed1;
                variations := v; unique := None |}
             {| count := Some b; locale := l2; seed := seed2;
                variations := v; unique := None |}
             {| count := Some (a + b); locale := l3; seed := seed3;
                variations := v; unique := None |}
             a b r1 w1 g1 r2 w2 g2 Huse Hclock Ha Hb eq_refl eq_refl eq_refl eq_refl
             eq_refl eq_refl eq_refl eq_refl E1 E2).
  reflexivity.
Qed.

Lemma cy_generateData_ignores_seed_witness :
  exists r1 r2 st2,
    cy_generateData (at_time (sample_host 0) 1793664000999) (1 # 4) None "counter"
      {| count := Some (3 + 3); locale := None; seed := Some 12345%Q;
         variations := None; unique := None |}
    = (Returns (r1 ++ r2), [], st2).
Proof.
  eexists _, _, _.
  eapply (cy_generateData_ignores_seed (sample_host 0)
            1793664000123 1793664000456 1793664000999 (1 # 4) (3 # 4) "counter"
            counter_template 3 3
            None None None None (Some 12345%Q) (Some 12345%Q) (Some 12345%Q)).
  - vm_compute. reflexivity.
  - right. vm_compute. reflexivity.
  - lia.
  - lia.
  - vm_compute. reflexivity.
  - vm_compute. reflexivity.
Defined.

(** ** The retry budget and string synthesis *)

(** X18.  The retry loop of one output index makes between 1 and
    [maxAttempts] attempts (100 with [unique], 1 without); a record
    returned before the budget is spent is not a duplicate; without
    [unique] exactly one record is generated. *)
Theorem attempt_loop_budget (host : Host) (template : DataTemplate)
    (variations unique : bool) (generatedValues : gset string) (s : Q)
    (data : value) (attempts : Z) (s' : Q) :
  attempt_loop host template variations unique (Z.to_nat (maxAttempts unique)) 0
    generatedValues s = Ok (data, attempts) s' ->
  1 <= attempts <= maxAttempts unique
  /\ (attempts < maxAttempts unique -> isDuplicate host data generatedValues = false)
  /\ (unique = false -> attempts = 1).
Proof.
  intros E.
  apply attempt_loop_attempts in E as [Hn Hfresh]; [| lia | destruct unique; cbn; lia].
  assert (Hmax : 1 <= maxAttempts unique) by (destruct unique; cbn; lia).
  split; [lia|]. split.
  - intros Hlt. apply Hfresh; [| exact Hlt].
    destruct unique; [reflexivity | cbn in Hlt; lia].
  - intros ->. cbn in Hn. lia.
Qed.

Lemma attempt_loop_budget_witness :
  1 <= 2 <= maxAttempts true
  /\ (2 < maxAttempts true ->
      isDuplicate (sample_host 0) (VObj [("n", VNum 1)])
        {[ JSON_stringify (sample_host 0) (VObj [("n", VNum 41)]) ]} = false)
  /\ (true = false -> 2 = 1).
Proof.
  eapply (attempt_loop_budget (sample_host 0) counter_template true true
            {[ JSON_stringify (sample_host 0) (VObj [("n", VNum 41)]) ]}
            (inject_Z 12345)).
  vm_compute. reflexivity.
Defined.

Lemma generateString_length_witness :
  exists str,
    VStr "avnqmSab" = VStr str /\ 5 <= Z.of_nat (String.length str) <= 12.
Proof.
  eapply (generateString_length (length_constraints (Some 5) (Some 12)) true
            (inject_Z 12345)).
  - cbn. lia.
  - vm_compute. intros H; discriminate H.
  - split; vm_compute; intros H; discriminate H.
  - vm_compute. reflexivity.
Defined.
